(** * CAN bus services: the SocketCAN connector and the D-Bus listener

    A shallow embedding of [lib/can/CANConnector.cpp] and
    [services/canlistenner/CANListener.cpp].

    The process state is threaded explicitly.  Everything the process does
    to the outside (system calls, bus calls, callbacks, console output) is
    collected, in program order, in a list of events; everything the
    outside answers (return values of system calls, exceptions of the bus
    library, the clock) is read from a [World] of oracles.  A computation
    ends normally, by a C++ exception, or is still pending: its fuel (the
    number of loop-head checks granted to the reader thread) is used up,
    or it waits in the join of a thread that does not end.

    Threads are interleaved at the grain of whole calls and whole passes
    of the reader loop: the reader runs when it is scheduled
    ([run_readThread]) or joined, so [m_socketMutex], which only orders
    [write] against [read], does not appear.  The accessor
    [CANListener::instance] is the exception: its callers are interleaved
    one memory operation at a time (module [Singleton]). *)

From Stdlib Require Import ZArith NArith List String Ascii Bool Lia.
From Stdlib Require Import DecimalString HexadecimalString.
Import ListNotations.

Local Open Scope string_scope.
Local Open Scope Z_scope.

(** ** Constants of <linux/can.h> and <sys/socket.h> *)

Definition CAN_MAX_DLEN : nat := 8.
Definition sizeof_can_frame : Z := 16.
Definition PF_CAN : Z := 29.
Definition AF_CAN : Z := 29.

(** <net/if.h>: the size of [ifr_name], the terminating NUL included. *)
Definition IFNAMSIZ : nat := 16.

(** ** Data *)

(** [struct can_frame]: [data] holds the bytes that were copied in; the
    bytes of the array past them are indeterminate and not represented. *)
Record can_frame := {
  can_id : Z;
  can_dlc : nat;
  data : list Byte.byte
}.

Record sockaddr_can := { can_family : Z; can_ifindex : Z }.
Record ifreq := { ifr_name : string; ifr_ifindex : Z }.

(** A [std::function] slot.  The closures the repository installs are
    the three lambdas of [CANListener]'s constructor and the recording
    closures of its clients; an empty slot tests false. *)
Inductive Callback := NoCallback | ClientCallback | ListenerCallback.

(** [std::unique_ptr<std::thread>] is [option Thread]. *)
Inductive Thread := Running | Finished | Joined.

Definition joinable (t : option Thread) : bool :=
  match t with
  | Some Running | Some Finished => true
  | _ => false
  end.

Record CANConnector := {
  m_interfaceName : string;
  m_socket : Z;
  m_connected : bool;
  m_shouldStop : bool;
  m_addr : sockaddr_can;
  m_ifr : ifreq;
  m_messageCallback : Callback;
  m_statusCallback : Callback;
  m_errorCallback : Callback;
  m_readThread : option Thread
}.

(** The bus object of sdbus-c++, with what has been registered on it. *)
Record DBusObject := {
  methods : list string;
  signals : list string;
  finished : bool
}.

(** ** The outside world *)

(** What a system call answers: its return value, the [errno] it sets
    when that is negative, and its out-parameters ([ifr_ifindex] of
    SIOCGIFINDEX, the descriptor bit of [select], the frame of [read]). *)
Record SysReply := {
  sr_ret : Z;
  sr_errno : Z;
  sr_ifindex : Z;
  sr_isset : bool;
  sr_frame : can_frame
}.

Inductive Exn := SdbusError (msg : string) | StdException (msg : string).

Inductive BusReply := BusOk | BusThrow (e : Exn).

Record World := {
  strerror : Z -> string;
  kernel : nat -> SysReply;
  sessionbus : nat -> BusReply;
  system_clock : nat -> Z
}.

Inductive Syscall :=
| Socket (domain : Z)
| Ioctl (fd : Z) (name : string)
| Bind (fd : Z) (addr : sockaddr_can)
| Close (fd : Z)
| Write (fd : Z) (frame : can_frame)
| Select (fd : Z)
| Read (fd : Z).

Inductive BusOp :=
| CreateSessionBusConnection
| RequestName (name : string)
| CreateObject (path : string)
| RegisterMethod (iface name : string)
| RegisterSignal (iface name : string)
| FinishRegistration
| EnterEventLoop
| LeaveEventLoop
| ReleaseName (name : string)
| CreateSignal (iface name : string)
| EmitSignal (iface name : string) (canId : Z) (payload : list Byte.byte) (timestamp : Z).

Inductive Event :=
| Sys (call : Syscall) (ret : Z)
| Bus (op : BusOp) (reply : BusReply)
| MessageCb (canId : Z) (payload : list Byte.byte)
| StatusCb (connected : bool)
| ErrorCb (msg : string)
| ThreadStart
| ThreadJoin
| Stdout (line : string)
| Stderr (line : string).

(** ** Process state *)

Record State := {
  world : World;
  nsys : nat;
  nbus : nat;
  nclock : nat;
  errno : Z;
  conn : CANConnector;
  m_dbusConnection : bool;
  m_dbusObject : option DBusObject;
  m_dbusThread : option Thread
}.

Definition set_interfaceName (v : string) (c : CANConnector) : CANConnector :=
  {| m_interfaceName := v; m_socket := m_socket c; m_connected := m_connected c;
     m_shouldStop := m_shouldStop c; m_addr := m_addr c; m_ifr := m_ifr c;
     m_messageCallback := m_messageCallback c; m_statusCallback := m_statusCallback c;
     m_errorCallback := m_errorCallback c; m_readThread := m_readThread c |}.

Definition set_socket (v : Z) (c : CANConnector) : CANConnector :=
  {| m_interfaceName := m_interfaceName c; m_socket := v; m_connected := m_connected c;
     m_shouldStop := m_shouldStop c; m_addr := m_addr c; m_ifr := m_ifr c;
     m_messageCallback := m_messageCallback c; m_statusCallback := m_statusCallback c;
     m_errorCallback := m_errorCallback c; m_readThread := m_readThread c |}.

Definition set_connected (v : bool) (c : CANConnector) : CANConnector :=
  {| m_interfaceName := m_interfaceName c; m_socket := m_socket c; m_connected := v;
     m_shouldStop := m_shouldStop c; m_addr := m_addr c; m_ifr := m_ifr c;
     m_messageCallback := m_messageCallback c; m_statusCallback := m_statusCallback c;
     m_errorCallback := m_errorCallback c; m_readThread := m_readThread c |}.

Definition set_shouldStop (v : bool) (c : CANConnector) : CANConnector :=
  {| m_interfaceName := m_interfaceName c; m_socket := m_socket c; m_connected := m_connected c;
     m_shouldStop := v; m_addr := m_addr c; m_ifr := m_ifr c;
     m_messageCallback := m_messageCallback c; m_statusCallback := m_statusCallback c;
     m_errorCallback := m_errorCallback c; m_readThread := m_readThread c |}.

Definition set_addr (v : sockaddr_can) (c : CANConnector) : CANConnector :=
  {| m_interfaceName := m_interfaceName c; m_socket := m_socket c; m_connected := m_connected c;
     m_shouldStop := m_shouldStop c; m_addr := v; m_ifr := m_ifr c;
     m_messageCallback := m_messageCallback c; m_statusCallback := m_statusCallback c;
     m_errorCallback := m_errorCallback c; m_readThread := m_readThread c |}.

Definition set_ifr (v : ifreq) (c : CANConnector) : CANConnector :=
  {| m_interfaceName := m_interfaceName c; m_socket := m_socket c; m_connected := m_connected c;
     m_shouldStop := m_shouldStop c; m_addr := m_addr c; m_ifr := v;
     m_messageCallback := m_messageCallback c; m_statusCallback := m_statusCallback c;
     m_errorCallback := m_errorCallback c; m_readThread := m_readThread c |}.

Definition set_messageCallback (v : Callback) (c : CANConnector) : CANConnector :=
  {| m_interfaceName := m_interfaceName c; m_socket := m_socket c; m_connected := m_connected c;
     m_shouldStop := m_shouldStop c; m_addr := m_addr c; m_ifr := m_ifr c;
     m_messageCallback := v; m_statusCallback := m_statusCallback c;
     m_errorCallback := m_errorCallback c; m_readThread := m_readThread c |}.

Definition set_statusCallback (v : Callback) (c : CANConnector) : CANConnector :=
  {| m_interfaceName := m_interfaceName c; m_socket := m_socket c; m_connected := m_connected c;
     m_shouldStop := m_shouldStop c; m_addr := m_addr c; m_ifr := m_ifr c;
     m_messageCallback := m_messageCallback c; m_statusCallback := v;
     m_errorCallback := m_errorCallback c; m_readThread := m_readThread c |}.

Definition set_errorCallback (v : Callback) (c : CANConnector) : CANConnector :=
  {| m_interfaceName := m_interfaceName c; m_socket := m_socket c; m_connected := m_connected c;
     m_shouldStop := m_shouldStop c; m_addr := m_addr c; m_ifr := m_ifr c;
     m_messageCallback := m_messageCallback c; m_statusCallback := m_statusCallback c;
     m_errorCallback := v; m_readThread := m_readThread c |}.

Definition set_readThread (v : option Thread) (c : CANConnector) : CANConnector :=
  {| m_interfaceName := m_interfaceName c; m_socket := m_socket c; m_connected := m_connected c;
     m_shouldStop := m_shouldStop c; m_addr := m_addr c; m_ifr := m_ifr c;
     m_messageCallback := m_messageCallback c; m_statusCallback := m_statusCallback c;
     m_errorCallback := m_errorCallback c; m_readThread := v |}.

Definition with_conn (f : CANConnector -> CANConnector) (s : State) : State :=
  {| world := world s; nsys := nsys s; nbus := nbus s; nclock := nclock s;
     errno := errno s; conn := f (conn s);
     m_dbusConnection := m_dbusConnection s; m_dbusObject := m_dbusObject s;
     m_dbusThread := m_dbusThread s |}.

(** [errno] belongs to the calling thread; the state keeps a single
    one for the process. *)
Definition with_kernel_reply (r : SysReply) (s : State) : State :=
  {| world := world s; nsys := S (nsys s); nbus := nbus s; nclock := nclock s;
     errno := if sr_ret r <? 0 then sr_errno r else errno s; conn := conn s;
     m_dbusConnection := m_dbusConnection s; m_dbusObject := m_dbusObject s;
     m_dbusThread := m_dbusThread s |}.

Definition with_bus_reply (s : State) : State :=
  {| world := world s; nsys := nsys s; nbus := S (nbus s); nclock := nclock s;
     errno := errno s; conn := conn s;
     m_dbusConnection := m_dbusConnection s; m_dbusObject := m_dbusObject s;
     m_dbusThread := m_dbusThread s |}.

Definition with_clock_read (s : State) : State :=
  {| world := world s; nsys := nsys s; nbus := nbus s; nclock := S (nclock s);
     errno := errno s; conn := conn s;
     m_dbusConnection := m_dbusConnection s; m_dbusObject := m_dbusObject s;
     m_dbusThread := m_dbusThread s |}.

Definition set_dbusConnection (v : bool) (s : State) : State :=
  {| world := world s; nsys := nsys s; nbus := nbus s; nclock := nclock s;
     errno := errno s; conn := conn s;
     m_dbusConnection := v; m_dbusObject := m_dbusObject s;
     m_dbusThread := m_dbusThread s |}.

Definition set_dbusObject (v : option DBusObject) (s : State) : State :=
  {| world := world s; nsys := nsys s; nbus := nbus s; nclock := nclock s;
     errno := errno s; conn := conn s;
     m_dbusConnection := m_dbusConnection s; m_dbusObject := v;
     m_dbusThread := m_dbusThread s |}.

Definition set_dbusThread (v : option Thread) (s : State) : State :=
  {| world := world s; nsys := nsys s; nbus := nbus s; nclock := nclock s;
     errno := errno s; conn := conn s;
     m_dbusConnection := m_dbusConnection s; m_dbusObject := m_dbusObject s;
     m_dbusThread := v |}.

(** ** The monad: state, event log, exceptions, pending computations *)

Inductive Result (A : Type) :=
| Done (a : A)
| Thrown (e : Exn)
| Pending.

Arguments Done {A} a.
Arguments Thrown {A} e.
Arguments Pending {A}.

Definition M (A : Type) : Type := State -> Result A * State * list Event.

Definition ret {A} (a : A) : M A := fun s => (Done a, s, []).

Definition bind {A B} (m : M A) (f : A -> M B) : M B :=
  fun s =>
    match m s with
    | (Done a, s1, t1) =>
        match f a s1 with
        | (r, s2, t2) => (r, s2, (t1 ++ t2)%list)
        end
    | (Thrown e, s1, t1) => (Thrown e, s1, t1)
    | (Pending, s1, t1) => (Pending, s1, t1)
    end.

Notation "x <- m ;; k" := (bind m (fun x => k))
  (at level 61, m at next level, right associativity).
Notation "m ;; k" := (bind m (fun _ => k))
  (at level 61, right associativity).

Definition get : M State := fun s => (Done s, s, []).
Definition this : M CANConnector := fun s => (Done (conn s), s, []).
Definition modify (f : State -> State) : M unit := fun s => (Done tt, f s, []).
Definition assign (f : CANConnector -> CANConnector) : M unit := modify (with_conn f).
Definition emit (e : Event) : M unit := fun s => (Done tt, s, [e]).
Definition throw {A} (e : Exn) : M A := fun s => (Thrown e, s, []).
Definition pending {A} : M A := fun s => (Pending, s, []).

(** [try { body } catch (...) { handler }] for the exception types of the
    repository; a pending body stays pending. *)
Definition try_catch {A} (body : M A) (handler : Exn -> M A) : M A :=
  fun s =>
    match body s with
    | (Thrown e, s1, t1) =>
        match handler e s1 with
        | (r, s2, t2) => (r, s2, (t1 ++ t2)%list)
        end
    | other => other
    end.

Definition when (b : bool) (m : M unit) : M unit := if b then m else ret tt.

Definition result_of {A} (x : Result A * State * list Event) : Result A := fst (fst x).
Definition state_of {A} (x : Result A * State * list Event) : State := snd (fst x).
Definition events_of {A} (x : Result A * State * list Event) : list Event := snd x.

(** A system call: the kernel's next reply is consumed, [errno] is set
    on failure, and the call is logged with its return value. *)
Definition syscall (call : Syscall) : M SysReply :=
  fun s =>
    let r := kernel (world s) (nsys s) in
    (Done r, with_kernel_reply r s, [Sys call (sr_ret r)]).

(** A call into sdbus-c++: returns or throws, as the bus decides. *)
Definition buscall (op : BusOp) : M unit :=
  fun s =>
    let r := sessionbus (world s) (nbus s) in
    (match r with BusOk => Done tt | BusThrow e => Thrown e end,
     with_bus_reply s, [Bus op r]).

Definition now_micros : M Z :=
  fun s => (Done (system_clock (world s) (nclock s)), with_clock_read s, []).

Definition strerror_errno : M string :=
  fun s => (Done (strerror (world s) (errno s)), s, []).

Definition stdout (line : string) : M unit := emit (Stdout line).
Definition stderr (line : string) : M unit := emit (Stderr line).

(** ** Formatting, as iostream and printf do it *)

Definition to_string (n : nat) : string :=
  DecimalString.NilZero.string_of_uint (Nat.to_uint n).

(** [std::hex] on an unsigned value: lowercase, no padding. *)
Definition hex (v : Z) : string :=
  HexadecimalString.NilZero.string_of_uint (N.to_hex_uint (Z.to_N v)).

Definition hex_digit_upper (n : N) : ascii :=
  match n with
  | 0%N => "0" | 1%N => "1" | 2%N => "2" | 3%N => "3" | 4%N => "4"
  | 5%N => "5" | 6%N => "6" | 7%N => "7" | 8%N => "8" | 9%N => "9"
  | 10%N => "A" | 11%N => "B" | 12%N => "C" | 13%N => "D" | 14%N => "E"
  | _ => "F"
  end%char.

(** [printf("%02X ", byte)] *)
Definition printf_02X (b : Byte.byte) : string :=
  String (hex_digit_upper (Byte.to_N b / 16))
    (String (hex_digit_upper (Byte.to_N b mod 16)) " ").

Definition dump (payload : list Byte.byte) : string :=
  List.fold_right (fun b acc => printf_02X b ++ acc) "" payload.

(** ** CANListener: frame handling (CANListener.cpp, lines 152-198) *)

Definition SERVICE_NAME : string := "org.example.DMS.CAN".
Definition OBJECT_PATH : string := "/org/example/DMS/CANListener".
Definition INTERFACE_NAME : string := "org.example.DMS.CAN".

(** [try { body } catch (const sdbus::Error& e) { handler }] *)
Definition catch_sdbus (body : M unit) (handler : string -> M unit) : M unit :=
  try_catch body
    (fun e => match e with
              | SdbusError msg => handler msg
              | StdException _ => throw e
              end).

Definition forwardCANMessageToECU (canId : Z) (payload : list Byte.byte) : M unit :=
  if (0x100 <=? canId) && (canId <=? 0x1FF) then
    stdout ("Forwarding engine message to ECU - ID: 0x" ++ hex canId)
  else if (0x200 <=? canId) && (canId <=? 0x2FF) then
    stdout ("Forwarding transmission message to ECU - ID: 0x" ++ hex canId)
  else
    ret tt.

Definition onCANMessageReceived (canId : Z) (payload : list Byte.byte) : M unit :=
  timestamp <- now_micros ;;
  catch_sdbus
    (s <- get ;;
     match m_dbusObject s with
     | Some _ =>
         buscall (CreateSignal INTERFACE_NAME "CANMessageReceived") ;;
         buscall (EmitSignal INTERFACE_NAME "CANMessageReceived" canId payload timestamp) ;;
         stdout ("Emitted D-Bus signal CANMessageReceived with canId=0x" ++ hex canId)
     | None => ret tt
     end)
    (fun msg => stderr ("Error emitting CAN message signal: " ++ msg)) ;;
  forwardCANMessageToECU canId payload ;;
  stdout ("CAN message received - ID: 0x" ++ hex canId ++ " Data: " ++ dump payload).

(** ** CANConnector (CANConnector.cpp) *)

(** Invoking a callback slot: [if (m_xCallback) m_xCallback(...)].  The
    invocation is logged, then the closure runs: a listener lambda has the
    body given in [CANListener]'s constructor, a client closure has no
    effect on this state. *)
Definition fire_message (canId : Z) (payload : list Byte.byte) : M unit :=
  c <- this ;;
  match m_messageCallback c with
  | NoCallback => ret tt
  | ClientCallback => emit (MessageCb canId payload)
  | ListenerCallback =>
      emit (MessageCb canId payload) ;; onCANMessageReceived canId payload
  end.

Definition fire_status (connected : bool) : M unit :=
  c <- this ;;
  match m_statusCallback c with
  | NoCallback => ret tt
  | ClientCallback => emit (StatusCb connected)
  | ListenerCallback =>
      emit (StatusCb connected) ;;
      stdout ("CAN interface " ++ (if connected then "connected" else "disconnected"))
  end.

Definition fire_error (msg : string) : M unit :=
  c <- this ;;
  match m_errorCallback c with
  | NoCallback => ret tt
  | ClientCallback => emit (ErrorCb msg)
  | ListenerCallback => emit (ErrorCb msg) ;; stderr ("CAN error: " ++ msg)
  end.

Definition CANConnector_new (interfaceName : string) : CANConnector :=
  {| m_interfaceName := interfaceName;
     m_socket := -1;
     m_connected := false;
     m_shouldStop := false;
     m_addr := {| can_family := 0; can_ifindex := 0 |};
     m_ifr := {| ifr_name := ""; ifr_ifindex := 0 |};
     m_messageCallback := NoCallback;
     m_statusCallback := NoCallback;
     m_errorCallback := NoCallback;
     m_readThread := None |}.

(** [strcpy(m_ifr.ifr_name, m_interfaceName.c_str())] has no bound: it
    is defined for a name of fewer than [IFNAMSIZ] characters, which is
    then what [ifr_name] holds.  What the copy of a longer name does to
    the members behind [ifr_name] is not represented: the statements
    about a [connect] that reaches the copy assume a name that fits. *)
Definition setupSocket : M bool :=
  r <- syscall (Socket PF_CAN) ;;
  assign (set_socket (sr_ret r)) ;;
  if sr_ret r <? 0 then ret false
  else
    c <- this ;;
    assign (set_ifr {| ifr_name := m_interfaceName c;
                       ifr_ifindex := ifr_ifindex (m_ifr c) |}) ;;
    r <- syscall (Ioctl (m_socket c) (m_interfaceName c)) ;;
    if sr_ret r <? 0 then
      syscall (Close (m_socket c)) ;;
      assign (set_socket (-1)) ;;
      ret false
    else
      assign (set_ifr {| ifr_name := m_interfaceName c;
                         ifr_ifindex := sr_ifindex r |}) ;;
      let addr := {| can_family := AF_CAN; can_ifindex := sr_ifindex r |} in
      assign (set_addr addr) ;;
      r <- syscall (Bind (m_socket c) addr) ;;
      if sr_ret r <? 0 then
        syscall (Close (m_socket c)) ;;
        assign (set_socket (-1)) ;;
        ret false
      else ret true.

Definition cleanupSocket : M unit :=
  c <- this ;;
  if 0 <=? m_socket c then
    syscall (Close (m_socket c)) ;;
    assign (set_socket (-1))
  else ret tt.

(** One pass through the body of the reader's [while] loop; [false] is
    [break]. *)
Definition reader_body : M bool :=
  c <- this ;;
  r <- syscall (Select (m_socket c)) ;;
  if (0 <? sr_ret r) && sr_isset r then
    r2 <- syscall (Read (m_socket c)) ;;
    if sr_ret r2 =? sizeof_can_frame then
      let frame := sr_frame r2 in
      let payload := firstn (can_dlc frame) (data frame) in
      fire_message (can_id frame) payload ;;
      stdout ("Received CAN message - ID: 0x" ++ hex (can_id frame)
              ++ " Data: " ++ dump payload) ;;
      ret true
    else if sr_ret r2 <? 0 then
      e <- strerror_errno ;;
      fire_error ("Error reading CAN socket: " ++ e) ;;
      ret false
    else ret true
  else if sr_ret r <? 0 then
    e <- strerror_errno ;;
    fire_error ("Select error: " ++ e) ;;
    ret false
  else ret true.

(** The reader loop.  [fuel] bounds the number of loop-head checks; a
    loop that has not left within them is [Pending]. *)
Fixpoint readThreadFunction (fuel : nat) : M unit :=
  match fuel with
  | O => pending
  | S fuel' =>
      c <- this ;;
      if m_shouldStop c then ret tt
      else
        continue <- reader_body ;;
        if continue then readThreadFunction fuel' else ret tt
  end.

(** The reader thread scheduled for [fuel] loop-head checks. *)
Definition run_readThread (fuel : nat) : M unit :=
  c <- this ;;
  match m_readThread c with
  | Some Running =>
      readThreadFunction fuel ;;
      assign (set_readThread (Some Finished))
  | _ => ret tt
  end.

(** [m_readThread->join()]: the caller waits until the thread function
    has returned. *)
Definition join_readThread (fuel : nat) : M unit :=
  c <- this ;;
  match m_readThread c with
  | Some Running =>
      readThreadFunction fuel ;;
      assign (set_readThread (Some Joined)) ;;
      emit ThreadJoin
  | Some Finished =>
      assign (set_readThread (Some Joined)) ;;
      emit ThreadJoin
  | _ => ret tt
  end.

Definition connect : M bool :=
  c <- this ;;
  if m_connected c then ret true
  else
    ok <- setupSocket ;;
    if negb ok then
      e <- strerror_errno ;;
      fire_error ("Failed to setup CAN socket: " ++ e) ;;
      ret false
    else
      assign (set_connected true) ;;
      assign (set_shouldStop false) ;;
      assign (set_readThread (Some Running)) ;;
      emit ThreadStart ;;
      fire_status true ;;
      stdout ("Connected to CAN interface: " ++ m_interfaceName c) ;;
      ret true.

Definition disconnect (fuel : nat) : M unit :=
  c <- this ;;
  if negb (m_connected c) then ret tt
  else
    assign (set_shouldStop true) ;;
    when (joinable (m_readThread c)) (join_readThread fuel) ;;
    cleanupSocket ;;
    assign (set_connected false) ;;
    fire_status false ;;
    stdout ("Disconnected from CAN interface: " ++ m_interfaceName c).

Definition isConnected : M bool :=
  c <- this ;; ret (m_connected c).

Definition sendMessage (canId : Z) (payload : list Byte.byte) : M bool :=
  c <- this ;;
  if negb (m_connected c) || (m_socket c <? 0) then
    fire_error "CAN socket not connected" ;;
    ret false
  else if (CAN_MAX_DLEN <? List.length payload)%nat then
    fire_error ("Data too large: " ++ to_string (List.length payload)
                ++ " bytes (max: " ++ to_string CAN_MAX_DLEN ++ ")") ;;
    ret false
  else
    let frame := {| can_id := canId; can_dlc := List.length payload; data := payload |} in
    r <- syscall (Write (m_socket c) frame) ;;
    if negb (sr_ret r =? sizeof_can_frame) then
      e <- strerror_errno ;;
      fire_error ("Failed to send CAN message: " ++ e) ;;
      ret false
    else
      stdout ("Sent CAN message - ID: 0x" ++ hex canId ++ " Data: " ++ dump payload) ;;
      ret true.

Definition setInterfaceName (fuel : nat) (interfaceName : string) : M unit :=
  c <- this ;;
  if negb (String.eqb (m_interfaceName c) interfaceName) then
    let wasConnected := m_connected c in
    when wasConnected (disconnect fuel) ;;
    assign (set_interfaceName interfaceName) ;;
    when wasConnected (connect ;; ret tt)
  else ret tt.

Definition interfaceName : M string :=
  c <- this ;; ret (m_interfaceName c).

Definition setMessageCallback (cb : Callback) : M unit := assign (set_messageCallback cb).
Definition setStatusCallback (cb : Callback) : M unit := assign (set_statusCallback cb).
Definition setErrorCallback (cb : Callback) : M unit := assign (set_errorCallback cb).

(** ** CANListener: life cycle and bus surface (CANListener.cpp, lines 15-150) *)

(** The constructor: a connector on "vcan0" with the three lambdas
    installed, no bus connection, no bus object, no bus thread.
    [m_canConnector] is set here and never reset, so the null test on it
    in [stop] always succeeds; the connector is the [conn] of the state. *)
Definition CANListener_new (w : World) : State :=
  {| world := w; nsys := 0; nbus := 0; nclock := 0; errno := 0;
     conn := set_errorCallback ListenerCallback
               (set_statusCallback ListenerCallback
                  (set_messageCallback ListenerCallback (CANConnector_new "vcan0")));
     m_dbusConnection := false; m_dbusObject := None; m_dbusThread := None |}.

Definition new_object : DBusObject :=
  {| methods := []; signals := []; finished := false |}.

Definition add_method (name : string) (o : DBusObject) : DBusObject :=
  {| methods := (methods o ++ [name])%list; signals := signals o; finished := finished o |}.

Definition add_signal (name : string) (o : DBusObject) : DBusObject :=
  {| methods := methods o; signals := (signals o ++ [name])%list; finished := finished o |}.

Definition finish (o : DBusObject) : DBusObject :=
  {| methods := methods o; signals := signals o; finished := true |}.

Definition on_object (f : DBusObject -> DBusObject) : M unit :=
  modify (fun s => set_dbusObject (option_map f (m_dbusObject s)) s).

Definition registerMethod (name : string) : M unit :=
  buscall (RegisterMethod INTERFACE_NAME name) ;; on_object (add_method name).

Definition registerSignal (name : string) : M unit :=
  buscall (RegisterSignal INTERFACE_NAME name) ;; on_object (add_signal name).

(** The bus thread runs the library's [enterEventLoop], which returns
    when [leaveEventLoop] is accepted (see below); an event loop that the
    library ends for a reason of its own is not represented.  Neither is
    the assignment to [m_dbusThread] while a thread is left to join,
    which ends the process: statements about a set-up that gets as far
    as the thread assume there is none. *)
Definition setupDBusInterface : M unit :=
  catch_sdbus
    (buscall CreateSessionBusConnection ;;
     modify (set_dbusConnection true) ;;
     stdout "[CAN Listener] Connected to SESSION bus" ;;
     buscall (RequestName SERVICE_NAME) ;;
     buscall (CreateObject OBJECT_PATH) ;;
     modify (set_dbusObject (Some new_object)) ;;
     registerMethod "SendCANMessage" ;;
     registerMethod "GetStatus" ;;
     registerSignal "CANMessageReceived" ;;
     registerSignal "CANMessageSent" ;;
     buscall FinishRegistration ;;
     on_object finish ;;
     stdout ("[CAN Listener] D-Bus service ready: " ++ SERVICE_NAME) ;;
     modify (set_dbusThread (Some Running)) ;;
     emit ThreadStart)
    (fun msg => stderr ("D-Bus setup error: " ++ msg)).

(** The two method handlers registered above. *)
Definition SendCANMessage (canId : Z) (payload : list Byte.byte) : M bool :=
  sendMessage canId payload.

Definition GetStatus : M string :=
  connected <- isConnected ;;
  ret (if connected then "Connected" else "Disconnected").

Definition start : M unit :=
  stdout "Starting CAN Listener service..." ;;
  setupDBusInterface ;;
  ok <- connect ;;
  if negb ok then stderr "Failed to connect to CAN interface"
  else stdout "CAN Listener service started successfully".

(** [m_dbusConnection->leaveEventLoop()]: when the library accepts the
    call, [enterEventLoop] returns on the bus thread and the thread
    function ends; when the call throws, the event loop goes on. *)
Definition leaveEventLoop : M unit :=
  buscall LeaveEventLoop ;;
  s <- get ;;
  match m_dbusThread s with
  | Some Running => modify (set_dbusThread (Some Finished))
  | _ => ret tt
  end.

(** [m_dbusThread->join()]: the caller waits until the thread function
    has returned.  On a thread whose event loop has not been left the
    wait does not end, whatever the fuel. *)
Definition join_dbusThread : M unit :=
  s <- get ;;
  match m_dbusThread s with
  | Some Running => pending
  | Some Finished => modify (set_dbusThread (Some Joined)) ;; emit ThreadJoin
  | _ => ret tt
  end.

Definition stop (fuel : nat) : M unit :=
  stdout "Stopping CAN Listener service..." ;;
  disconnect fuel ;;
  s <- get ;;
  when (m_dbusConnection s)
    (try_catch leaveEventLoop
       (fun e => match e with
                 | SdbusError msg =>
                     stderr ("Warning: Failed to leave D-Bus event loop: " ++ msg)
                 | StdException msg =>
                     stderr ("Warning: Exception leaving D-Bus event loop: " ++ msg)
                 end) ;;
     s1 <- get ;;
     when (joinable (m_dbusThread s1)) join_dbusThread ;;
     try_catch (buscall (ReleaseName SERVICE_NAME))
       (fun e => match e with
                 | SdbusError msg =>
                     stderr ("Warning: Failed to release D-Bus name: " ++ msg)
                 | StdException msg =>
                     stderr ("Warning: Exception while releasing D-Bus name: " ++ msg)
                 end) ;;
     modify (set_dbusObject None) ;;
     modify (set_dbusConnection false) ;;
     modify (set_dbusThread None)) ;;
  stdout "CAN Listener service stopped".

(** ** CANListener::instance (CANListener.cpp, lines 6-13)

    The accessor is four memory operations on the function-local static
    [instance]: test it, allocate and construct, [reset], [get].  Several
    callers are interleaved at that granularity. *)

Module Singleton.

(** Addresses are positive numbers handed out in order; [None] is the
    null pointer. *)
Record Memory := {
  instance_ptr : option nat;
  next_address : nat;
  constructed : list nat;
  deleted : list nat
}.

Definition boot : Memory :=
  {| instance_ptr := None; next_address := 1%nat; constructed := []; deleted := [] |}.

Inductive PC :=
| AtTest
| AtNew
| AtReset (p : nat)
| AtGet
| Returned (r : option nat).

(** [new CANListener()] *)
Definition construct (m : Memory) : Memory * nat :=
  ({| instance_ptr := instance_ptr m;
      next_address := S (next_address m);
      constructed := (constructed m ++ [next_address m])%list;
      deleted := deleted m |},
   next_address m).

(** [instance.reset(p)]: store [p], then delete what was owned before. *)
Definition reset (p : nat) (m : Memory) : Memory :=
  {| instance_ptr := Some p;
     next_address := next_address m;
     constructed := constructed m;
     deleted := match instance_ptr m with
                | Some old => (deleted m ++ [old])%list
                | None => deleted m
                end |}.

Definition step (m : Memory) (pc : PC) : Memory * PC :=
  match pc with
  | AtTest =>
      match instance_ptr m with
      | None => (m, AtNew)
      | Some _ => (m, AtGet)
      end
  | AtNew => let (m', p) := construct m in (m', AtReset p)
  | AtReset p => (reset p m, AtGet)
  | AtGet => (m, Returned (instance_ptr m))
  | Returned r => (m, Returned r)
  end.

(** One caller running alone. *)
Definition instance (m : Memory) : Memory * option nat :=
  let m1 :=
    match instance_ptr m with
    | None => let (m', p) := construct m in reset p m'
    | Some _ => m
    end in
  (m1, instance_ptr m1).

Fixpoint calls (n : nat) (m : Memory) : Memory * list (option nat) :=
  match n with
  | O => (m, [])
  | S n' =>
      let (m1, r) := instance m in
      let (m2, rs) := calls n' m1 in
      (m2, r :: rs)
  end.

Fixpoint set_nth (i : nat) (pc : PC) (ts : list PC) : list PC :=
  match ts, i with
  | [], _ => []
  | _ :: rest, O => pc :: rest
  | t :: rest, S i' => t :: set_nth i' pc rest
  end.

(** Callers [ts] scheduled one memory operation at a time. *)
Fixpoint run (schedule : list nat) (m : Memory) (ts : list PC) : Memory * list PC :=
  match schedule with
  | [] => (m, ts)
  | i :: rest =>
      match nth_error ts i with
      | Some pc => let (m', pc') := step m pc in run rest m' (set_nth i pc' ts)
      | None => run rest m ts
      end
  end.

End Singleton.

(** ** Scenarios: concrete worlds *)

(** A few entries of the C library's [strerror] table on Linux. *)
Definition linux_strerror (e : Z) : string :=
  match e with
  | 9 => "Bad file descriptor"
  | 19 => "No such device"
  | 24 => "Too many open files"
  | 100 => "Network is down"
  | 105 => "No buffer space available"
  | _ => "Unknown error"
  end.

Definition no_frame : can_frame := {| can_id := 0; can_dlc := 0%nat; data := [] |}.

Definition returns (v : Z) : SysReply :=
  {| sr_ret := v; sr_errno := 0; sr_ifindex := 0; sr_isset := false; sr_frame := no_frame |}.

Definition fails (e : Z) : SysReply :=
  {| sr_ret := -1; sr_errno := e; sr_ifindex := 0; sr_isset := false; sr_frame := no_frame |}.

Definition ifindex_is (i : Z) : SysReply :=
  {| sr_ret := 0; sr_errno := 0; sr_ifindex := i; sr_isset := false; sr_frame := no_frame |}.

Definition readable : SysReply :=
  {| sr_ret := 1; sr_errno := 0; sr_ifindex := 0; sr_isset := true; sr_frame := no_frame |}.

Definition delivers (f : can_frame) : SysReply :=
  {| sr_ret := sizeof_can_frame; sr_errno := 0; sr_ifindex := 0; sr_isset := false;
     sr_frame := f |}.

(** The kernel answers from a script and with [otherwise] after it. *)
Definition scripted (replies : list SysReply) (otherwise : SysReply) : nat -> SysReply :=
  fun n => nth n replies otherwise.

Definition a_world (replies : list SysReply) (otherwise : SysReply)
  (bus : nat -> BusReply) : World :=
  {| strerror := linux_strerror;
     kernel := scripted replies otherwise;
     sessionbus := bus;
     system_clock := fun _ => 1700000000000000 |}.

(** A stand-alone connector on [name] with recording client closures, as
    the fixture of tests/test_can_connector.cpp sets it up. *)
Definition client_state (w : World) (name : string) : State :=
  {| world := w; nsys := 0; nbus := 0; nclock := 0; errno := 0;
     conn := set_errorCallback ClientCallback
               (set_statusCallback ClientCallback
                  (set_messageCallback ClientCallback (CANConnector_new name)));
     m_dbusConnection := false; m_dbusObject := None; m_dbusThread := None |}.

Definition bytes8 : list Byte.byte :=
  [Byte.x01; Byte.x02; Byte.x03; Byte.x04; Byte.x05; Byte.x06; Byte.x07; Byte.x08].

(** ** Vocabulary of the statements *)

(** What invoking the error slot [cb] with [msg] adds to the log. *)
Definition error_events (cb : Callback) (msg : string) : list Event :=
  match cb with
  | NoCallback => []
  | ClientCallback => [ErrorCb msg]
  | ListenerCallback => [ErrorCb msg; Stderr ("CAN error: " ++ msg)]
  end.

Definition status_events (cb : Callback) (connected : bool) : list Event :=
  match cb with
  | NoCallback => []
  | ClientCallback => [StatusCb connected]
  | ListenerCallback =>
      [StatusCb connected;
       Stdout ("CAN interface " ++ (if connected then "connected" else "disconnected"))]
  end.

Definition is_write (e : Event) : bool :=
  match e with
  | Sys (Write _ _) _ => true
  | _ => false
  end.

(** The [write] system calls of a log. *)
Definition write_calls (t : list Event) : list Event := filter is_write t.

Definition too_large (n : nat) : string :=
  "Data too large: " ++ to_string n ++ " bytes (max: " ++ to_string CAN_MAX_DLEN ++ ")".

(** [needle] occurs in [hay]. *)
Fixpoint contains (needle hay : string) : bool :=
  String.prefix needle hay ||
  match hay with
  | EmptyString => false
  | String _ rest => contains needle rest
  end.

(** ** Evaluating a computation on a symbolic state *)

Ltac mrun :=
  cbv beta iota zeta delta
      [bind ret get this modify assign emit throw pending try_catch catch_sdbus when
       syscall buscall now_micros strerror_errno stdout stderr on_object
       result_of state_of events_of];
  cbn [fst snd app negb andb orb option_map
       with_conn with_kernel_reply with_bus_reply with_clock_read
       set_dbusConnection set_dbusObject set_dbusThread
       set_interfaceName set_socket set_connected set_shouldStop set_addr set_ifr
       set_messageCallback set_statusCallback set_errorCallback set_readThread
       world nsys nbus nclock errno conn m_dbusConnection m_dbusObject m_dbusThread
       m_interfaceName m_socket m_connected m_shouldStop m_addr m_ifr
       m_messageCallback m_statusCallback m_errorCallback m_readThread].

(** *** connect *)

Inductive SetupStep := AtSocket | AtIoctl | AtBind.

(** The first of the three set-up calls the kernel refuses, if any: the
    calls of [setupSocket] consume the kernel's replies [nsys s],
    [nsys s + 1], ... in order, and a refused [ioctl] or [bind] is
    followed by the [close] of the descriptor. *)
Definition failing_step (s : State) : option SetupStep :=
  let k := kernel (world s) in
  let n := nsys s in
  if sr_ret (k n) <? 0 then Some AtSocket
  else if sr_ret (k (S n)) <? 0 then Some AtIoctl
  else if sr_ret (k (S (S n))) <? 0 then Some AtBind
  else None.

(** The system calls of [setupSocket], with their return values. *)
Definition setup_log (s : State) : list Event :=
  let k := kernel (world s) in
  let n := nsys s in
  let fd := sr_ret (k n) in
  let name := m_interfaceName (conn s) in
  let addr := {| can_family := AF_CAN; can_ifindex := sr_ifindex (k (S n)) |} in
  match failing_step s with
  | Some AtSocket => [Sys (Socket PF_CAN) fd]
  | Some AtIoctl =>
      [Sys (Socket PF_CAN) fd; Sys (Ioctl fd name) (sr_ret (k (S n)));
       Sys (Close fd) (sr_ret (k (S (S n))))]
  | Some AtBind =>
      [Sys (Socket PF_CAN) fd; Sys (Ioctl fd name) (sr_ret (k (S n)));
       Sys (Bind fd addr) (sr_ret (k (S (S n))));
       Sys (Close fd) (sr_ret (k (S (S (S n)))))]
  | None =>
      [Sys (Socket PF_CAN) fd; Sys (Ioctl fd name) (sr_ret (k (S n)));
       Sys (Bind fd addr) (sr_ret (k (S (S n))))]
  end.

(** [errno] after a failed [setupSocket]: that of the refused call,
    unless the [close] that follows it fails too and overwrites it. *)
Definition setup_errno (s : State) : Z :=
  let k := kernel (world s) in
  let n := nsys s in
  match failing_step s with
  | Some AtSocket => sr_errno (k n)
  | Some AtIoctl =>
      if sr_ret (k (S (S n))) <? 0 then sr_errno (k (S (S n))) else sr_errno (k (S n))
  | Some AtBind =>
      if sr_ret (k (S (S (S n)))) <? 0 then sr_errno (k (S (S (S n))))
      else sr_errno (k (S (S n)))
  | None => errno s
  end.

Definition setup_message (s : State) : string :=
  "Failed to setup CAN socket: " ++ strerror (world s) (setup_errno s).

(** *** The reader thread *)

(** A computation that never writes the connector object. *)
Definition keeps_conn {A} (m : M A) : Prop :=
  forall s, conn (state_of (m s)) = conn s.

(** The next pass of the reader loop meets a hard failure: [select]
    fails, or [select] reports the descriptor readable and [read] fails. *)
Definition hard_read_failure (s : State) : bool :=
  let sel := kernel (world s) (nsys s) in
  let rd := kernel (world s) (S (nsys s)) in
  if (0 <? sr_ret sel) && sr_isset sel then sr_ret rd <? 0 else sr_ret sel <? 0.

(** What that pass logs. *)
Definition hard_failure_log (s : State) : list Event :=
  let sel := kernel (world s) (nsys s) in
  let rd := kernel (world s) (S (nsys s)) in
  let fd := m_socket (conn s) in
  let cb := m_errorCallback (conn s) in
  if (0 <? sr_ret sel) && sr_isset sel then
    Sys (Select fd) (sr_ret sel) :: Sys (Read fd) (sr_ret rd) ::
    error_events cb ("Error reading CAN socket: " ++ strerror (world s) (sr_errno rd))
  else
    Sys (Select fd) (sr_ret sel) ::
    error_events cb ("Select error: " ++ strerror (world s) (sr_errno sel)).

Create HintDb frame.

(** *** disconnect and stop *)

(** What [disconnect] logs on a connected connector. *)
Definition disconnect_log (s : State) : list Event :=
  let c := conn s in
  ((if joinable (m_readThread c) then [ThreadJoin] else []) ++
   (if 0 <=? m_socket c
    then [Sys (Close (m_socket c)) (sr_ret (kernel (world s) (nsys s)))] else []) ++
   status_events (m_statusCallback c) false ++
   [Stdout ("Disconnected from CAN interface: " ++ m_interfaceName c)])%list.





(** *** The descriptor invariant *)

(** A connector that says it is connected holds a descriptor. *)
Definition valid_descriptor (s : State) : Prop :=
  m_connected (conn s) = true -> 0 <= m_socket (conn s).

Definition preserves {A} (m : M A) : Prop :=
  forall s, valid_descriptor s -> valid_descriptor (state_of (m s)).

(** What a client of the connector or of the listener, and the
    scheduler of the reader thread, can do to the process. *)
Inductive Call :=
| CallConnect
| CallDisconnect (fuel : nat)
| CallSendMessage (canId : Z) (payload : list Byte.byte)
| CallSetInterfaceName (fuel : nat) (name : string)
| CallSetMessageCallback (cb : Callback)
| CallSetStatusCallback (cb : Callback)
| CallSetErrorCallback (cb : Callback)
| CallStart
| CallStop (fuel : nat)
| CallGetStatus
| RunReadThread (fuel : nat).

Definition perform (c : Call) (s : State) : State :=
  match c with
  | CallConnect => state_of (connect s)
  | CallDisconnect fuel => state_of (disconnect fuel s)
  | CallSendMessage canId payload => state_of (sendMessage canId payload s)
  | CallSetInterfaceName fuel name => state_of (setInterfaceName fuel name s)
  | CallSetMessageCallback cb => state_of (setMessageCallback cb s)
  | CallSetStatusCallback cb => state_of (setStatusCallback cb s)
  | CallSetErrorCallback cb => state_of (setErrorCallback cb s)
  | CallStart => state_of (start s)
  | CallStop fuel => state_of (stop fuel s)
  | CallGetStatus => state_of (GetStatus s)
  | RunReadThread fuel => state_of (run_readThread fuel s)
  end.

(** The states a process gets into: a constructed connector or
    listener, then any sequence of calls. *)
Inductive reachable : State -> Prop :=
| reach_client (w : World) (name : string) : reachable (client_state w name)
| reach_listener (w : World) : reachable (CANListener_new w)
| reach_call (s : State) (c : Call) : reachable s -> reachable (perform c s).

(** *** Routing of received frames *)


(** The ranges [forwardCANMessageToECU] tests. *)
Definition implemented_ranges : list (Z * Z * string) :=
  [(0x100, 0x1FF, "engine"); (0x200, 0x2FF, "transmission")].

Fixpoint category (table : list (Z * Z * string)) (canId : Z) : option string :=
  match table with
  | [] => None
  | (lo, hi, name) :: rest =>
      if (lo <=? canId) && (canId <=? hi) then Some name else category rest canId
  end.

(** The forwarding line a table prescribes for a frame. *)
Definition forwarding_log (table : list (Z * Z * string)) (canId : Z) : list Event :=
  match category table canId with
  | Some name => [Stdout ("Forwarding " ++ name ++ " message to ECU - ID: 0x" ++ hex canId)]
  | None => []
  end.

(** *** Worlds of the instances *)

Definition quiet_bus : nat -> BusReply := fun _ => BusOk.

(** vcan0 comes up: descriptor 3, interface index 4, bind accepted. *)
Definition world_up : World :=
  a_world [returns 3; ifindex_is 4; returns 0] (returns 0) quiet_bus.

(** vcan0 comes up, then the first [write] transfers a whole frame. *)
Definition world_sends : World :=
  a_world [returns 3; ifindex_is 4; returns 0; returns sizeof_can_frame] (returns 0)
    quiet_bus.

Definition frame_123 : can_frame :=
  {| can_id := 0x123; can_dlc := 4;
     data := [Byte.x01; Byte.x02; Byte.x03; Byte.x04;
              Byte.x00; Byte.x00; Byte.x00; Byte.x00] |}.

(** vcan0 comes up, then a frame arrives: [select] reports the
    descriptor readable and [read] delivers [frame_123]. *)
Definition world_frame_arrives : World :=
  a_world [returns 3; ifindex_is 4; returns 0; readable; delivers frame_123] (returns 0)
    quiet_bus.

(** vcan0 comes up, then the first [write] fails with ENOBUFS. *)
Definition world_write_fails : World :=
  a_world [returns 3; ifindex_is 4; returns 0; fails 105] (returns 0) quiet_bus.

(** vcan0 comes up, then the first [select] fails with EBADF. *)
Definition world_select_fails : World :=
  a_world [returns 3; ifindex_is 4; returns 0; fails 9] (returns 0) quiet_bus.

(** vcan0 comes up, but the bus throws on its ninth call, the first
    one after the eight calls of a set-up. *)
Definition world_bus_fails : World :=
  a_world [returns 3; ifindex_is 4; returns 0] (returns 0)
    (fun n => if (n =? 8)%nat then BusThrow (SdbusError "Connection is closed") else BusOk).


(** vcan0 comes up; the bus hands out a connection and refuses every
    call after that. *)
Definition world_bus_refuses : World :=
  a_world [returns 3; ifindex_is 4; returns 0] (returns 0)
    (fun n => if (n =? 0)%nat then BusOk else BusThrow (SdbusError "Connection is closed")).

(** The interface does not exist: SIOCGIFINDEX fails with ENODEV. *)
Definition world_no_device : World :=
  a_world [returns 3; fails 19; returns 0] (returns 0) quiet_bus.

Definition registered_object : DBusObject :=
  finish (add_signal "CANMessageSent" (add_signal "CANMessageReceived"
    (add_method "GetStatus" (add_method "SendCANMessage" new_object)))).

(** ** Vocabulary of the further properties *)

(** The replacement of a [std::thread] that has not been joined ends
    the process; that is not represented in the state.  The statements
    below about a successful set-up assume, beside a name that fits
    [ifr_name], that no thread is left to join, which is what
    [connection_invariant] guarantees for the reader thread. *)

Definition is_message (e : Event) : bool :=
  match e with
  | MessageCb _ _ => true
  | _ => false
  end.

(** The invocations of the message slot in a log. *)
Definition message_calls (t : list Event) : list Event := filter is_message t.

(** What the reader hands to the message slot for a frame it has read:
    the identifier and the first [can_dlc] bytes of the data. *)
Definition delivered (f : can_frame) : Event :=
  MessageCb (can_id f) (firstn (can_dlc f) (data f)).

(** From its [n]-th reply on, the kernel reports the descriptor readable
    and delivers the frames of the list, one whole frame per [read]. *)
Fixpoint frames_arrive (w : World) (n : nat) (frames : list can_frame) : Prop :=
  match frames with
  | [] => True
  | f :: rest =>
      (0 <? sr_ret (kernel w n)) && sr_isset (kernel w n) = true
      /\ sr_ret (kernel w (S n)) = sizeof_can_frame
      /\ sr_frame (kernel w (S n)) = f
      /\ frames_arrive w (S (S n)) rest
  end.

(** The connection flag, the descriptor and the reader thread agree: a
    connected connector holds a descriptor and a thread to join, a
    disconnected one holds neither. *)
Definition connection_invariant (c : CANConnector) : Prop :=
  if m_connected c
  then 0 <= m_socket c /\ joinable (m_readThread c) = true
  else m_socket c < 0 /\ joinable (m_readThread c) = false.

Definition maintains (I : CANConnector -> Prop) {A} (m : M A) : Prop :=
  forall s, I (conn s) -> I (conn (state_of (m s))).

(** The next pass of the reader loop is uneventful: [select] times out,
    or the descriptor is readable and [read] returns a count that is
    neither a whole frame nor an error. *)
Definition uneventful_pass (s : State) : bool :=
  let sel := kernel (world s) (nsys s) in
  let rd := kernel (world s) (S (nsys s)) in
  if (0 <? sr_ret sel) && sr_isset sel
  then negb (sr_ret rd =? sizeof_can_frame) && negb (sr_ret rd <? 0)
  else negb (sr_ret sel <? 0).

Definition is_syscall (e : Event) : bool :=
  match e with
  | Sys _ _ => true
  | _ => false
  end.

(** The system calls of a log. *)
Definition syscalls (t : list Event) : list Event := filter is_syscall t.

Definition is_status (e : Event) : bool :=
  match e with
  | StatusCb _ => true
  | _ => false
  end.

(** The (identifier, payload) pairs of the CANMessageReceived signals
    the bus accepted, in the order of the log. *)
Fixpoint published (t : list Event) : list (Z * list Byte.byte) :=
  match t with
  | [] => []
  | Bus (EmitSignal _ _ canId payload _) BusOk :: rest => (canId, payload) :: published rest
  | _ :: rest => published rest
  end.

(** The bus throws no exception other than [sdbus::Error]. *)
Definition only_sdbus_errors (w : World) : Prop :=
  forall n msg, sessionbus w n <> BusThrow (StdException msg).

(** What the reader thread may log: [select] and [read] are its only
    system calls, and it does not invoke the status slot. *)
Definition reader_event (e : Event) : bool :=
  match e with
  | Sys (Select _) _ | Sys (Read _) _ => true
  | Sys _ _ => false
  | StatusCb _ => false
  | ThreadStart | ThreadJoin => false
  | _ => true
  end.

Definition logs_only (P : Event -> bool) {A} (m : M A) : Prop :=
  forall s, forallb P (events_of (m s)) = true.

(** The last line [onCANMessageReceived] prints for a frame. *)
Definition received_line (canId : Z) (payload : list Byte.byte) : Event :=
  Stdout ("CAN message received - ID: 0x" ++ hex canId ++ " Data: " ++ dump payload).

(** What [connect] logs, by the state it starts from. *)
Definition connect_log (s : State) : list Event :=
  if m_connected (conn s) then []
  else
    match failing_step s with
    | Some _ =>
        (setup_log s ++ error_events (m_errorCallback (conn s)) (setup_message s))%list
    | None =>
        (setup_log s ++ ThreadStart :: status_events (m_statusCallback (conn s)) true
         ++ [Stdout ("Connected to CAN interface: " ++ m_interfaceName (conn s))])%list
    end.

(** The bus accepts every call. *)
Definition quiet (w : World) : Prop := forall n, sessionbus w n = BusOk.

(** The eight bus calls of [setupDBusInterface], in program order, each
    with what the function logs once the call has returned. *)
Definition bus_setup_steps : list (BusOp * list Event) :=
  [(CreateSessionBusConnection, [Stdout "[CAN Listener] Connected to SESSION bus"]);
   (RequestName SERVICE_NAME, []);
   (CreateObject OBJECT_PATH, []);
   (RegisterMethod INTERFACE_NAME "SendCANMessage", []);
   (RegisterMethod INTERFACE_NAME "GetStatus", []);
   (RegisterSignal INTERFACE_NAME "CANMessageReceived", []);
   (RegisterSignal INTERFACE_NAME "CANMessageSent", []);
   (FinishRegistration,
    [Stdout ("[CAN Listener] D-Bus service ready: " ++ SERVICE_NAME); ThreadStart])].

(** What a set-up logs when the bus answers from reply [n] on: the calls
    up to the first one refused; an [sdbus::Error] is followed by the
    line of the handler, another exception by nothing. *)
Fixpoint bus_setup_log (w : World) (n : nat) (steps : list (BusOp * list Event))
  : list Event :=
  match steps with
  | [] => []
  | (op, after) :: rest =>
      match sessionbus w n with
      | BusOk => (Bus op BusOk :: after ++ bus_setup_log w (S n) rest)%list
      | BusThrow (SdbusError msg) =>
          [Bus op (BusThrow (SdbusError msg)); Stderr ("D-Bus setup error: " ++ msg)]
      | BusThrow (StdException msg) => [Bus op (BusThrow (StdException msg))]
      end
  end.

(** What the message slot is given for a frame. *)
Definition frame_content (f : can_frame) : Z * list Byte.byte :=
  (can_id f, firstn (can_dlc f) (data f)).

(** A caller of [instance] that will not construct: it is about to test
    or to read the pointer, or has returned [p]. *)
Definition settled (p : nat) (pc : Singleton.PC) : Prop :=
  pc = Singleton.AtTest \/ pc = Singleton.AtGet \/ pc = Singleton.Returned (Some p).

(** Memory operations a caller of [instance] still has to make once the
    pointer is set. *)
Definition steps_left (pc : Singleton.PC) : nat :=
  match pc with
  | Singleton.AtTest => 2
  | Singleton.AtNew => 3
  | Singleton.AtReset _ => 2
  | Singleton.AtGet => 1
  | Singleton.Returned _ => 0
  end.

Definition is_error (e : Event) : bool :=
  match e with
  | ErrorCb _ => true
  | _ => false
  end.

(** The invocations of the error slot in a log. *)
Definition error_calls (t : list Event) : list Event := filter is_error t.

(** The value the status slot was given last in a log, [init] when it
    was not invoked. *)
Definition last_status (init : bool) (t : list Event) : bool :=
  fold_left (fun acc e => match e with StatusCb b => b | _ => acc end) t init.

(** A computation that leaves the status slot installed as it is. *)
Definition keeps_status_slot {A} (m : M A) : Prop :=
  forall s, m_statusCallback (conn (state_of (m s))) = m_statusCallback (conn s).

(** A computation after which the status slot, if one is installed,
    has been told the connection flag. *)
Definition tracks {A} (m : M A) : Prop :=
  forall s, m_statusCallback (conn s) <> NoCallback ->
    last_status (m_connected (conn s)) (events_of (m s)) =
      m_connected (conn (state_of (m s))).

Definition not_status (e : Event) : bool := negb (is_status e).

(** What a call logs. *)
Definition perform_log (c : Call) (s : State) : list Event :=
  match c with
  | CallConnect => events_of (connect s)
  | CallDisconnect fuel => events_of (disconnect fuel s)
  | CallSendMessage canId payload => events_of (sendMessage canId payload s)
  | CallSetInterfaceName fuel name => events_of (setInterfaceName fuel name s)
  | CallSetMessageCallback cb => events_of (setMessageCallback cb s)
  | CallSetStatusCallback cb => events_of (setStatusCallback cb s)
  | CallSetErrorCallback cb => events_of (setErrorCallback cb s)
  | CallStart => events_of (start s)
  | CallStop fuel => events_of (stop fuel s)
  | CallGetStatus => events_of (GetStatus s)
  | RunReadThread fuel => events_of (run_readThread fuel s)
  end.

(** A sequence of calls, with the log of all of them. *)
Fixpoint execute (calls : list Call) (s : State) : State * list Event :=
  match calls with
  | [] => (s, [])
  | c :: rest =>
      let (s', t) := execute rest (perform c s) in
      (s', (perform_log c s ++ t)%list)
  end.

Definition leaves_status_slot (c : Call) : bool :=
  match c with
  | CallSetStatusCallback _ => false
  | _ => true
  end.

(** *** Worlds of the further instances *)

(** vcan0 comes up, then the first [write] transfers eight bytes only. *)
Definition world_short_write : World :=
  a_world [returns 3; ifindex_is 4; returns 0; returns 8] (returns 0) quiet_bus.

Definition frame_456 : can_frame :=
  {| can_id := 0x456; can_dlc := 2;
     data := [Byte.xaa; Byte.xbb; Byte.x00; Byte.x00;
              Byte.x00; Byte.x00; Byte.x00; Byte.x00] |}.

(** vcan0 comes up, then two frames arrive on successive passes. *)
Definition world_two_frames : World :=
  a_world [returns 3; ifindex_is 4; returns 0;
           readable; delivers frame_123; readable; delivers frame_456] (returns 0)
    quiet_bus.

(** vcan0 comes up, but there is no session bus: every bus call throws
    [sdbus::Error]. *)
Definition world_no_bus : World :=
  a_world [returns 3; ifindex_is 4; returns 0] (returns 0)
    (fun _ => BusThrow (SdbusError "Failed to open bus")).

(** vcan0 comes up twice: descriptor 3, then (after a [close]) 5. *)
Definition world_up_twice : World :=
  a_world [returns 3; ifindex_is 4; returns 0; returns 0;
           returns 5; ifindex_is 4; returns 0] (returns 0) quiet_bus.

(** vcan0 comes up and, after the reply to an intervening call, the
    descriptor is readable with a frame that carries the payload
    [bytes8] under identifier 0x123. *)
Definition world_echo : World :=
  a_world [returns 3; ifindex_is 4; returns 0;
           readable;
           delivers {| can_id := 0x123; can_dlc := 8; data := (bytes8 ++ [])%list |}]
    (returns 0) quiet_bus.

(** * Properties *)

(** ** Callback slots *)

Lemma fire_error_run (msg : string) (s : State) :
  fire_error msg s = (Done tt, s, error_events (m_errorCallback (conn s)) msg).
Proof.
  unfold fire_error, error_events. mrun.
  destruct (m_errorCallback (conn s)); reflexivity.
Qed.

Lemma fire_status_run (b : bool) (s : State) :
  fire_status b s = (Done tt, s, status_events (m_statusCallback (conn s)) b).
Proof.
  unfold fire_status, status_events. mrun.
  destruct (m_statusCallback (conn s)); reflexivity.
Qed.

Lemma write_calls_error_events (cb : Callback) (msg : string) :
  write_calls (error_events cb msg) = [].
Proof. destruct cb; reflexivity. Qed.

Lemma isConnected_run (s : State) :
  isConnected s = (Done (m_connected (conn s)), s, []).
Proof. reflexivity. Qed.

(** ** sendMessage *)

Lemma sendMessage_not_connected (s : State) (canId : Z) (payload : list Byte.byte) :
  negb (m_connected (conn s)) || (m_socket (conn s) <? 0) = true ->
  sendMessage canId payload s =
    (Done false, s, error_events (m_errorCallback (conn s)) "CAN socket not connected").
Proof.
  intros H. unfold sendMessage. mrun. rewrite H.
  mrun. rewrite fire_error_run. mrun. now rewrite app_nil_r.
Qed.

Lemma sendMessage_too_large (s : State) (canId : Z) (payload : list Byte.byte) :
  negb (m_connected (conn s)) || (m_socket (conn s) <? 0) = false ->
  (CAN_MAX_DLEN <? List.length payload)%nat = true ->
  sendMessage canId payload s =
    (Done false, s,
     error_events (m_errorCallback (conn s)) (too_large (List.length payload))).
Proof.
  intros H L. unfold sendMessage. mrun. rewrite H, L.
  mrun. rewrite fire_error_run. mrun. now rewrite app_nil_r.
Qed.

Lemma sendMessage_written (s : State) (canId : Z) (payload : list Byte.byte) :
  negb (m_connected (conn s)) || (m_socket (conn s) <? 0) = false ->
  (CAN_MAX_DLEN <? List.length payload)%nat = false ->
  let r := kernel (world s) (nsys s) in
  let frame := {| can_id := canId; can_dlc := List.length payload; data := payload |} in
  let s' := with_kernel_reply r s in
  sendMessage canId payload s =
    (Done (sr_ret r =? sizeof_can_frame), s',
     Sys (Write (m_socket (conn s)) frame) (sr_ret r) ::
     (if sr_ret r =? sizeof_can_frame
      then [Stdout ("Sent CAN message - ID: 0x" ++ hex canId ++ " Data: " ++ dump payload)]
      else error_events (m_errorCallback (conn s))
             ("Failed to send CAN message: " ++ strerror (world s) (errno s')))).
Proof.
  intros H L. unfold sendMessage. mrun. rewrite H, L. mrun.
  destruct (sr_ret (kernel (world s) (nsys s)) =? sizeof_can_frame) eqn:W; mrun.
  - reflexivity.
  - rewrite fire_error_run. mrun. now rewrite app_nil_r.
Qed.

Lemma not_ready_iff (c : CANConnector) :
  negb (m_connected c) || (m_socket c <? 0) = negb (m_connected c && (0 <=? m_socket c)).
Proof.
  rewrite Z.leb_antisym, negb_andb, negb_involutive. reflexivity.
Qed.

(** C9.  The connection test comes first: on a connector that is not
    connected, [sendMessage] answers [false], leaves the state as it is
    and invokes the error slot with "CAN socket not connected", whatever
    the length of the payload; the "Data too large" message is not
    produced there. *)
Theorem sendMessage_connection_check_first
  (s : State) (canId : Z) (payload : list Byte.byte)
  (H : m_connected (conn s) = false) :
  sendMessage canId payload s =
    (Done false, s, error_events (m_errorCallback (conn s)) "CAN socket not connected")
  /\ ~ In (ErrorCb (too_large (List.length payload)))
          (events_of (sendMessage canId payload s)).
Proof.
  assert (G : negb (m_connected (conn s)) || (m_socket (conn s) <? 0) = true)
    by (rewrite H; reflexivity).
  rewrite (sendMessage_not_connected s canId payload G).
  split; [reflexivity|].
  unfold events_of, error_events, too_large. cbn [snd].
  destruct (m_errorCallback (conn s)); cbn [In];
    intros K; repeat (destruct K as [K | K]; try discriminate K); exact K.
Qed.

(** ** setInterfaceName *)

(** C10.  Setting the interface name to the name already configured
    does nothing: the whole state (connection flag, descriptor, name,
    thread) is unchanged and nothing is logged, so no system call is made
    and no callback invoked. *)
Theorem setInterfaceName_same_name_noop
  (fuel : nat) (s : State) (name : string)
  (H : m_interfaceName (conn s) = name) :
  setInterfaceName fuel name s = (Done tt, s, []).
Proof.
  unfold setInterfaceName. mrun. rewrite H, String.eqb_refl. reflexivity.
Qed.

(** ** connect *)

Lemma connect_already_connected (s : State) :
  m_connected (conn s) = true -> connect s = (Done true, s, []).
Proof.
  intros C. unfold connect. mrun. rewrite C. reflexivity.
Qed.

Lemma connect_failure (s : State) (step : SetupStep) :
  m_connected (conn s) = false ->
  failing_step s = Some step ->
  let out := connect s in
  result_of out = Done false
  /\ events_of out =
       (setup_log s ++ error_events (m_errorCallback (conn s)) (setup_message s))%list
  /\ m_connected (conn (state_of out)) = false
  /\ m_socket (conn (state_of out)) =
       match step with AtSocket => sr_ret (kernel (world s) (nsys s)) | _ => -1 end
  /\ m_readThread (conn (state_of out)) = m_readThread (conn s)
  /\ m_interfaceName (conn (state_of out)) = m_interfaceName (conn s).
Proof.
  intros C F out. subst out.
  unfold setup_message, setup_errno, setup_log. rewrite F.
  unfold failing_step in F.
  unfold connect, setupSocket. mrun. rewrite C. mrun.
  destruct (sr_ret (kernel (world s) (nsys s)) <? 0) eqn:E0.
  - inversion F; subst step. mrun. rewrite fire_error_run. mrun.
    rewrite E0, C, ?app_nil_r. repeat split; reflexivity.
  - mrun.
    destruct (sr_ret (kernel (world s) (S (nsys s))) <? 0) eqn:E1.
    + inversion F; subst step. mrun. rewrite fire_error_run. mrun.
      rewrite E0, E1, C, ?app_nil_r. repeat split; reflexivity.
    + mrun.
      destruct (sr_ret (kernel (world s) (S (S (nsys s)))) <? 0) eqn:E2.
      * inversion F; subst step. mrun. rewrite fire_error_run. mrun.
        rewrite E0, E1, E2, C, ?app_nil_r. repeat split; reflexivity.
      * discriminate F.
Qed.

Lemma connect_success (s : State) :
  m_connected (conn s) = false ->
  failing_step s = None ->
  let out := connect s in
  result_of out = Done true
  /\ events_of out =
       (setup_log s ++ ThreadStart :: status_events (m_statusCallback (conn s)) true
        ++ [Stdout ("Connected to CAN interface: " ++ m_interfaceName (conn s))])%list
  /\ m_connected (conn (state_of out)) = true
  /\ m_socket (conn (state_of out)) = sr_ret (kernel (world s) (nsys s))
  /\ 0 <= m_socket (conn (state_of out))
  /\ m_shouldStop (conn (state_of out)) = false
  /\ m_readThread (conn (state_of out)) = Some Running.
Proof.
  intros C F out. subst out.
  unfold setup_log. rewrite F. unfold failing_step in F.
  unfold connect, setupSocket. mrun. rewrite C. mrun.
  destruct (sr_ret (kernel (world s) (nsys s)) <? 0) eqn:E0; [discriminate F|]. mrun.
  destruct (sr_ret (kernel (world s) (S (nsys s))) <? 0) eqn:E1; [discriminate F|]. mrun.
  destruct (sr_ret (kernel (world s) (S (S (nsys s)))) <? 0) eqn:E2; [discriminate F|].
  mrun. rewrite fire_status_run. mrun.
  repeat split; try reflexivity.
  now apply Z.ltb_ge.
Qed.

Lemma connect_events (s : State) : events_of (connect s) = connect_log s.
Proof.
  unfold connect_log.
  destruct (m_connected (conn s)) eqn:C.
  - now rewrite (connect_already_connected s C).
  - destruct (failing_step s) as [step|] eqn:F.
    + now destruct (connect_failure s step C F) as (_ & E & _).
    + now destruct (connect_success s C F) as (_ & E & _).
Qed.

Lemma failing_step_socket (s : State) :
  failing_step s = Some AtSocket -> sr_ret (kernel (world s) (nsys s)) < 0.
Proof.
  unfold failing_step.
  destruct (sr_ret (kernel (world s) (nsys s)) <? 0) eqn:E0.
  - intros _. now apply Z.ltb_lt.
  - destruct (sr_ret (kernel (world s) (S (nsys s))) <? 0);
      [|destruct (sr_ret (kernel (world s) (S (S (nsys s)))) <? 0)]; discriminate.
Qed.



(** C7 (as amended).  When a set-up step fails, on a connector whose
    name fits [ifr_name], the message handed to the error slot is the
    fixed text "Failed to setup CAN socket: " followed by the C library's
    text for [errno]; [errno] is that of the refused call when the
    descriptor (if one was open) closed without error.  The configured
    interface name is not part of the message: the same kernel replies
    give the same message under any name that fits. *)
Theorem connect_failure_message (s : State) (step : SetupStep)
  (C : m_connected (conn s) = false)
  (N : (String.length (m_interfaceName (conn s)) < IFNAMSIZ)%nat)
  (F : failing_step s = Some step) :
  let k := kernel (world s) in
  let n := nsys s in
  events_of (connect s) =
    (setup_log s ++
     error_events (m_errorCallback (conn s))
       ("Failed to setup CAN socket: " ++ strerror (world s) (setup_errno s)))%list
  /\ match step with
     | AtSocket => setup_errno s = sr_errno (k n)
     | AtIoctl => 0 <= sr_ret (k (S (S n))) -> setup_errno s = sr_errno (k (S n))
     | AtBind => 0 <= sr_ret (k (S (S (S n)))) -> setup_errno s = sr_errno (k (S (S n)))
     end
  /\ (forall name, (String.length name < IFNAMSIZ)%nat ->
        exists calls,
          events_of (connect (with_conn (set_interfaceName name) s)) =
            (calls ++
             error_events (m_errorCallback (conn s))
               ("Failed to setup CAN socket: " ++ strerror (world s) (setup_errno s)))%list).
Proof.
  intros k n. subst k n.
  destruct (connect_failure s step C F) as (_ & E & _).
  split; [exact E|]. split.
  - unfold setup_errno. rewrite F. destruct step; [reflexivity | |];
      intros H; apply Z.ltb_ge in H; rewrite H; reflexivity.
  - intros name _.
    destruct (connect_failure (with_conn (set_interfaceName name) s) step C F)
      as (_ & E' & _).
    eexists. exact E'.
Qed.

(** ** Computations that leave the connector alone *)

Lemma keeps_ret {A} (a : A) : keeps_conn (ret a).
Proof. intros s. reflexivity. Qed.

Lemma keeps_bind {A B} (m : M A) (f : A -> M B) :
  keeps_conn m -> (forall a, keeps_conn (f a)) -> keeps_conn (bind m f).
Proof.
  intros Hm Hf s. unfold bind, state_of.
  specialize (Hm s). unfold state_of in Hm.
  destruct (m s) as [[r s1] t1]. cbn [fst snd] in *.
  destruct r as [a | e | ]; cbn [fst snd]; try exact Hm.
  specialize (Hf a s1). unfold state_of in Hf.
  destruct (f a s1) as [[r2 s2] t2]. cbn [fst snd] in *. congruence.
Qed.

Lemma keeps_try_catch {A} (body : M A) (handler : Exn -> M A) :
  keeps_conn body -> (forall e, keeps_conn (handler e)) -> keeps_conn (try_catch body handler).
Proof.
  intros Hm Hf s. unfold try_catch, state_of.
  specialize (Hm s). unfold state_of in Hm.
  destruct (body s) as [[r s1] t1]. cbn [fst snd] in *.
  destruct r as [a | e | ]; cbn [fst snd]; try exact Hm.
  specialize (Hf e s1). unfold state_of in Hf.
  destruct (handler e s1) as [[r2 s2] t2]. cbn [fst snd] in *. congruence.
Qed.

Lemma keeps_get : keeps_conn get.
Proof. intros s. reflexivity. Qed.

Lemma keeps_this : keeps_conn this.
Proof. intros s. reflexivity. Qed.

Lemma keeps_emit (e : Event) : keeps_conn (emit e).
Proof. intros s. reflexivity. Qed.

Lemma keeps_throw {A} (e : Exn) : keeps_conn (@throw A e).
Proof. intros s. reflexivity. Qed.

Lemma keeps_pending {A} : keeps_conn (@pending A).
Proof. intros s. reflexivity. Qed.

Lemma keeps_syscall (call : Syscall) : keeps_conn (syscall call).
Proof. intros s. reflexivity. Qed.

Lemma keeps_buscall (op : BusOp) : keeps_conn (buscall op).
Proof. intros s. reflexivity. Qed.

Lemma keeps_now_micros : keeps_conn now_micros.
Proof. intros s. reflexivity. Qed.

Lemma keeps_strerror_errno : keeps_conn strerror_errno.
Proof. intros s. reflexivity. Qed.

#[export] Hint Resolve keeps_ret keeps_get keeps_this keeps_emit keeps_throw keeps_pending
  keeps_syscall keeps_buscall keeps_now_micros keeps_strerror_errno : frame.

Ltac frame :=
  repeat match goal with
    | |- keeps_conn (bind _ _) => apply keeps_bind; [| intros ?]
    | |- keeps_conn (try_catch _ _) => apply keeps_try_catch; [| intros ?]
    | |- keeps_conn (if ?b then _ else _) => destruct b
    | |- keeps_conn (match ?x with _ => _ end) => destruct x
    | |- keeps_conn _ => solve [auto with frame]
    end.

Lemma keeps_forwardCANMessageToECU (canId : Z) (payload : list Byte.byte) :
  keeps_conn (forwardCANMessageToECU canId payload).
Proof. unfold forwardCANMessageToECU, stdout. frame. Qed.

Lemma keeps_onCANMessageReceived (canId : Z) (payload : list Byte.byte) :
  keeps_conn (onCANMessageReceived canId payload).
Proof.
  pose proof keeps_forwardCANMessageToECU.
  unfold onCANMessageReceived, catch_sdbus, stdout, stderr. frame.
Qed.

Lemma keeps_fire_message (canId : Z) (payload : list Byte.byte) :
  keeps_conn (fire_message canId payload).
Proof.
  pose proof keeps_onCANMessageReceived.
  unfold fire_message. frame.
Qed.

Lemma keeps_fire_error (msg : string) : keeps_conn (fire_error msg).
Proof. intros s. rewrite fire_error_run. reflexivity. Qed.

Lemma keeps_reader_body : keeps_conn reader_body.
Proof.
  pose proof keeps_fire_message. pose proof keeps_fire_error.
  unfold reader_body, stdout. frame.
Qed.

Lemma keeps_readThreadFunction (fuel : nat) : keeps_conn (readThreadFunction fuel).
Proof.
  pose proof keeps_reader_body.
  induction fuel as [|fuel IH]; cbn [readThreadFunction]; frame.
Qed.

(** ** The reader thread *)

Lemma reader_body_hard_failure (s : State) :
  hard_read_failure s = true ->
  result_of (reader_body s) = Done false
  /\ events_of (reader_body s) = hard_failure_log s.
Proof.
  unfold hard_read_failure, hard_failure_log, reader_body. mrun.
  destruct ((0 <? sr_ret (kernel (world s) (nsys s)))
            && sr_isset (kernel (world s) (nsys s))) eqn:Sel; intros F.
  - mrun. rewrite F.
    assert (N : (sr_ret (kernel (world s) (S (nsys s))) =? sizeof_can_frame) = false).
    { apply Z.eqb_neq. apply Z.ltb_lt in F. unfold sizeof_can_frame. lia. }
    rewrite N. mrun. rewrite fire_error_run. mrun. rewrite F, ?app_nil_r.
    split; reflexivity.
  - mrun. rewrite F. mrun. rewrite fire_error_run. mrun. rewrite F, ?app_nil_r.
    split; reflexivity.
Qed.

Lemma readThreadFunction_step (fuel : nat) (s : State) :
  readThreadFunction (S fuel) s =
    if m_shouldStop (conn s) then (Done tt, s, [])
    else
      match reader_body s with
      | (Done true, s1, t1) =>
          match readThreadFunction fuel s1 with
          | (r, s2, t2) => (r, s2, (t1 ++ t2)%list)
          end
      | (Done false, s1, t1) => (Done tt, s1, t1)
      | (Thrown e, s1, t1) => (Thrown e, s1, t1)
      | (Pending, s1, t1) => (Pending, s1, t1)
      end.
Proof.
  cbn [readThreadFunction]. mrun.
  destruct (m_shouldStop (conn s)); [reflexivity|].
  destruct (reader_body s) as [[[[|]|e|] s1] t1]; mrun; rewrite ?app_nil_r;
    try reflexivity.
  destruct (readThreadFunction fuel s1) as [[r s2] t2]. reflexivity.
Qed.

(** C2 (as amended).  When the reader loop, not yet told to stop, meets
    a hard failure ([select] fails, or [read] fails on a readable
    descriptor), it leaves the loop in that pass and invokes the error
    slot with "Select error: ..." or "Error reading CAN socket: ...".
    The reader never writes the connector object: the connection flag and
    the descriptor are what they were, so [isConnected] keeps answering
    [true] on a connected connector and a later [connect] is the
    already-connected no-op; the flag is cleared by [disconnect] only. *)
Theorem reader_hard_failure_stops_loop (fuel : nat) (s : State)
  (Hstop : m_shouldStop (conn s) = false)
  (Hfail : hard_read_failure s = true) :
  let out := readThreadFunction (S fuel) s in
  result_of out = Done tt
  /\ events_of out = hard_failure_log s
  /\ conn (state_of out) = conn s
  /\ result_of (isConnected (state_of out)) = Done (m_connected (conn s))
  /\ (m_connected (conn s) = true ->
      connect (state_of out) = (Done true, state_of out, [])).
Proof.
  intros out.
  assert (K : conn (state_of out) = conn s) by apply keeps_readThreadFunction.
  destruct (reader_body_hard_failure s Hfail) as (R & E).
  assert (RE : result_of out = Done tt /\ events_of out = hard_failure_log s).
  { subst out. rewrite readThreadFunction_step, Hstop.
    unfold result_of, events_of in *.
    destruct (reader_body s) as [[r s1] t1]. cbn [fst snd] in *.
    rewrite R, E. split; reflexivity. }
  destruct RE as (R' & E').
  repeat split; try assumption.
  - rewrite isConnected_run, K. reflexivity.
  - intros C. apply connect_already_connected. rewrite K. exact C.
Qed.

(** ** disconnect and stop *)

Lemma readThreadFunction_stopped (fuel : nat) (s : State) :
  m_shouldStop (conn s) = true -> readThreadFunction (S fuel) s = (Done tt, s, []).
Proof.
  intros H. rewrite readThreadFunction_step, H. reflexivity.
Qed.

Lemma disconnect_not_connected (fuel : nat) (s : State) :
  m_connected (conn s) = false -> disconnect fuel s = (Done tt, s, []).
Proof.
  intros C. unfold disconnect. mrun. rewrite C. reflexivity.
Qed.

Lemma disconnect_connected (fuel : nat) (s : State) :
  m_connected (conn s) = true ->
  let out := disconnect (S fuel) s in
  result_of out = Done tt
  /\ events_of out = disconnect_log s
  /\ m_connected (conn (state_of out)) = false
  /\ m_socket (conn (state_of out)) < 0
  /\ joinable (m_readThread (conn (state_of out))) = false
  /\ world (state_of out) = world s
  /\ nbus (state_of out) = nbus s
  /\ m_dbusConnection (state_of out) = m_dbusConnection s
  /\ m_dbusObject (state_of out) = m_dbusObject s
  /\ m_dbusThread (state_of out) = m_dbusThread s.
Proof.
  intros C out. subst out.
  unfold disconnect, disconnect_log, join_readThread, cleanupSocket. mrun. rewrite C.
  destruct (m_readThread (conn s)) as [[ | | ]|] eqn:T;
    destruct (0 <=? m_socket (conn s)) eqn:Sk;
    cbn [joinable];
    repeat (mrun; rewrite ?T, ?Sk, ?fire_status_run;
            try (rewrite readThreadFunction_stopped by reflexivity));
    rewrite ?app_nil_r;
    repeat split; try reflexivity; try lia;
    apply Z.leb_gt in Sk; exact Sk.
Qed.


Lemma disconnect_returns (fuel : nat) (s : State) :
  let out := disconnect (S fuel) s in
  result_of out = Done tt
  /\ m_connected (conn (state_of out)) = false
  /\ world (state_of out) = world s
  /\ nbus (state_of out) = nbus s
  /\ m_dbusConnection (state_of out) = m_dbusConnection s
  /\ m_dbusObject (state_of out) = m_dbusObject s
  /\ m_dbusThread (state_of out) = m_dbusThread s.
Proof.
  destruct (m_connected (conn s)) eqn:C.
  - destruct (disconnect_connected fuel s C) as (R & _ & MC & _ & _ & W & B & D1 & D2 & D3).
    cbv zeta. auto 10.
  - cbv zeta. rewrite (disconnect_not_connected (S fuel) s C).
    unfold result_of, state_of. cbn [fst snd]. auto 10.
Qed.



(** ** The descriptor invariant *)

Lemma keeps_preserves {A} (m : M A) : keeps_conn m -> preserves m.
Proof.
  intros K s V. unfold valid_descriptor in *. rewrite (K s). exact V.
Qed.

Lemma preserves_bind {A B} (m : M A) (f : A -> M B) :
  preserves m -> (forall a, preserves (f a)) -> preserves (bind m f).
Proof.
  intros Hm Hf s V. unfold bind, state_of.
  specialize (Hm s V). unfold state_of in Hm.
  destruct (m s) as [[r s1] t1]. cbn [fst snd] in *.
  destruct r as [a | e | ]; cbn [fst snd]; try exact Hm.
  specialize (Hf a s1 Hm). unfold state_of in Hf.
  destruct (f a s1) as [[r2 s2] t2]. cbn [fst snd] in *. exact Hf.
Qed.

Lemma preserves_connect : preserves connect.
Proof.
  intros s V. destruct (m_connected (conn s)) eqn:C.
  - rewrite (connect_already_connected s C). exact V.
  - destruct (failing_step s) as [step|] eqn:F.
    + destruct (connect_failure s step C F) as (_ & _ & MC & _).
      intros H. rewrite MC in H. discriminate H.
    + destruct (connect_success s C F) as (_ & _ & _ & _ & P & _).
      intros _. exact P.
Qed.

Lemma preserves_disconnect (fuel : nat) : preserves (disconnect fuel).
Proof.
  intros s V. destruct (m_connected (conn s)) eqn:C.
  - destruct fuel as [|fuel].
    + unfold disconnect, join_readThread, cleanupSocket. mrun. rewrite C.
      destruct (m_readThread (conn s)) as [[ | | ]|] eqn:T;
        destruct (0 <=? m_socket (conn s)) eqn:Sk;
        cbn [joinable readThreadFunction];
        repeat (mrun; rewrite ?T, ?Sk, ?fire_status_run);
        unfold valid_descriptor; mrun;
        solve [ discriminate | intros _; apply V; exact C ].
    + destruct (disconnect_connected fuel s C) as (_ & _ & MC & _).
      intros H. rewrite MC in H. discriminate H.
  - rewrite (disconnect_not_connected fuel s C). exact V.
Qed.

Lemma keeps_fire_status (connected : bool) : keeps_conn (fire_status connected).
Proof. intros s. rewrite fire_status_run. reflexivity. Qed.

Lemma keeps_sendMessage (canId : Z) (payload : list Byte.byte) :
  keeps_conn (sendMessage canId payload).
Proof.
  pose proof keeps_fire_error.
  unfold sendMessage, stdout. frame.
Qed.

Lemma keeps_setupDBusInterface : keeps_conn setupDBusInterface.
Proof.
  assert (K1 : forall v, keeps_conn (modify (set_dbusConnection v)))
    by (intros v s; reflexivity).
  assert (K2 : forall v, keeps_conn (modify (set_dbusObject v)))
    by (intros v s; reflexivity).
  assert (K3 : forall v, keeps_conn (modify (set_dbusThread v)))
    by (intros v s; reflexivity).
  assert (K4 : forall f, keeps_conn (on_object f)) by (intros f s; reflexivity).
  unfold setupDBusInterface, catch_sdbus, registerMethod, registerSignal, stdout, stderr.
  frame.
Qed.

Lemma preserves_setInterfaceName (fuel : nat) (name : string) :
  preserves (setInterfaceName fuel name).
Proof.
  pose proof preserves_connect. pose proof (preserves_disconnect fuel).
  assert (Hn : preserves (assign (set_interfaceName name))) by (intros s V; exact V).
  assert (Hr : forall (A : Type) (a : A), preserves (ret a)) by (intros A a s V; exact V).
  unfold setInterfaceName, when.
  apply preserves_bind; [apply keeps_preserves, keeps_this | intros c].
  destruct (negb (m_interfaceName c =? name)%string); [|apply Hr].
  cbv zeta.
  destruct (m_connected c);
    repeat first [ assumption | apply Hr | apply preserves_bind; [| intros ?] ].
Qed.

Lemma preserves_start : preserves start.
Proof.
  pose proof preserves_connect.
  unfold start, stdout, stderr.
  apply preserves_bind; [apply keeps_preserves; auto with frame | intros _].
  apply preserves_bind; [apply keeps_preserves, keeps_setupDBusInterface | intros _].
  apply preserves_bind; [assumption | intros ok].
  destruct (negb ok); apply keeps_preserves; auto with frame.
Qed.

Lemma preserves_stop (fuel : nat) : preserves (stop fuel).
Proof.
  pose proof (preserves_disconnect fuel).
  assert (K1 : forall v, keeps_conn (modify (set_dbusConnection v)))
    by (intros v s; reflexivity).
  assert (K2 : forall v, keeps_conn (modify (set_dbusObject v)))
    by (intros v s; reflexivity).
  assert (K3 : forall v, keeps_conn (modify (set_dbusThread v)))
    by (intros v s; reflexivity).
  unfold stop, stdout.
  apply preserves_bind; [apply keeps_preserves; auto with frame | intros _].
  apply preserves_bind; [assumption | intros _].
  apply keeps_preserves. unfold when, leaveEventLoop, join_dbusThread, stderr. frame.
Qed.

Lemma preserves_run_readThread (fuel : nat) : preserves (run_readThread fuel).
Proof.
  intros s V. unfold run_readThread. mrun.
  destruct (m_readThread (conn s)) as [[ | | ]|]; try exact V.
  pose proof (keeps_readThreadFunction fuel s) as K.
  unfold state_of in *. destruct (readThreadFunction fuel s) as [[r s1] t1].
  cbn [fst snd] in *.
  destruct r; mrun; unfold valid_descriptor in *; mrun; rewrite K; exact V.
Qed.

(** Every state the process gets into satisfies the invariant. *)
Lemma reachable_valid_descriptor (s : State) : reachable s -> valid_descriptor s.
Proof.
  induction 1 as [w name | w | s c R IH].
  - intros H. discriminate H.
  - intros H. discriminate H.
  - destruct c; cbn [perform].
    + now apply preserves_connect.
    + now apply preserves_disconnect.
    + now apply (keeps_preserves _ (keeps_sendMessage canId payload)).
    + now apply preserves_setInterfaceName.
    + exact IH.
    + exact IH.
    + exact IH.
    + now apply preserves_start.
    + now apply preserves_stop.
    + exact IH.
    + now apply preserves_run_readThread.
Qed.

(** C1 (as amended).  [sendMessage] answers [true] exactly when the
    connector is connected with a valid descriptor, the payload has at
    most [CAN_MAX_DLEN] = 8 bytes and the kernel's [write] transfers the
    whole 16-byte frame.  It issues no [write] at all for a longer payload
    or when not connected, and exactly one [write], of the frame built
    from [canId] and the payload, otherwise.  Every [false] is reported
    to the error slot: "CAN socket not connected", the "Data too large"
    text, or, after a [write] that failed or was short, "Failed to send
    CAN message: " followed by the C library's text for [errno] (that of
    the [write] when it failed).  In every state the process gets into, a
    connector whose flag is set holds a valid descriptor, so there
    "connected" is the flag alone. *)
Theorem sendMessage_size_boundary (s : State) (canId : Z) (payload : list Byte.byte) :
  let ready := m_connected (conn s) && (0 <=? m_socket (conn s)) in
  let fits := (List.length payload <=? CAN_MAX_DLEN)%nat in
  let r := kernel (world s) (nsys s) in
  let whole := sr_ret r =? sizeof_can_frame in
  let frame := {| can_id := canId; can_dlc := List.length payload; data := payload |} in
  let report := error_events (m_errorCallback (conn s)) in
  let out := sendMessage canId payload s in
  result_of out = Done (ready && fits && whole)
  /\ write_calls (events_of out) =
       (if ready && fits then [Sys (Write (m_socket (conn s)) frame) (sr_ret r)] else [])
  /\ events_of out =
       (if negb ready then report "CAN socket not connected"
        else if negb fits then
          report ("Data too large: " ++ to_string (List.length payload)
                  ++ " bytes (max: 8)")
        else
          Sys (Write (m_socket (conn s)) frame) (sr_ret r) ::
          (if whole
           then [Stdout ("Sent CAN message - ID: 0x" ++ hex canId
                         ++ " Data: " ++ dump payload)]
           else report ("Failed to send CAN message: " ++
                        strerror (world s)
                          (if sr_ret r <? 0 then sr_errno r else errno s))))
  /\ (reachable s -> m_connected (conn s) = true -> ready = true).
Proof.
  intros ready fits r whole frame report out. subst out.
  pose proof (not_ready_iff (conn s)) as G. fold ready in G.
  assert (F : (CAN_MAX_DLEN <? List.length payload)%nat = negb fits)
    by (unfold fits; rewrite Nat.leb_antisym, negb_involutive; reflexivity).
  rewrite <- !and_assoc. split.
  - rewrite and_assoc.
    destruct ready; cbn [negb] in G |- *.
    + destruct fits; cbn [negb] in F |- *.
      * rewrite (sendMessage_written s canId payload G F).
        unfold result_of, events_of. cbn [fst snd andb write_calls filter is_write].
        fold r whole. split; [reflexivity|]. split; [|reflexivity].
        f_equal. destruct whole.
        -- reflexivity.
        -- apply write_calls_error_events.
      * rewrite (sendMessage_too_large s canId payload G F).
        unfold result_of, events_of. cbn [fst snd andb].
        split; [reflexivity|]. split; [apply write_calls_error_events | reflexivity].
    + rewrite (sendMessage_not_connected s canId payload G).
      unfold result_of, events_of. cbn [fst snd andb].
      split; [reflexivity|]. split; [apply write_calls_error_events | reflexivity].
  - intros R C. apply reachable_valid_descriptor in R. specialize (R C).
    unfold ready. rewrite C. cbn [andb]. now apply Z.leb_le.
Qed.


(** ** The bus surface of the listener *)

Lemma GetStatus_run (s : State) :
  GetStatus s =
    (Done (if m_connected (conn s) then "Connected" else "Disconnected"), s, []).
Proof. reflexivity. Qed.

(** C6.  The handler of SendCANMessage is [sendMessage] itself: same
    answer, same effects, for every identifier and payload.  The handler
    of GetStatus reads the connection flag at the time of the call and
    stores nothing: it answers "Connected" or "Disconnected" by the flag
    and leaves the state as it is, so right after [disconnect] it answers
    "Disconnected" and right after a [connect] whose set-up succeeds it
    answers "Connected". *)
Theorem bus_methods_delegate
  (fuel : nat) (s : State) (canId : Z) (payload : list Byte.byte) :
  SendCANMessage canId payload s = sendMessage canId payload s
  /\ GetStatus s =
       (Done (if m_connected (conn s) then "Connected" else "Disconnected"), s, [])
  /\ result_of (GetStatus (state_of (disconnect (S fuel) s))) = Done "Disconnected"
  /\ (failing_step s = None ->
      result_of (GetStatus (state_of (connect s))) = Done "Connected").
Proof.
  split; [reflexivity|]. split; [reflexivity|]. split.
  - destruct (disconnect_returns fuel s) as (_ & MC & _).
    rewrite GetStatus_run, MC. reflexivity.
  - intros F. rewrite GetStatus_run.
    destruct (m_connected (conn s)) eqn:C.
    + rewrite (connect_already_connected s C). unfold state_of. cbn [fst snd].
      rewrite C. reflexivity.
    + destruct (connect_success s C F) as (_ & _ & MC & _). rewrite MC. reflexivity.
Qed.

(** ** Routing of received frames *)

Lemma forwardCANMessageToECU_run (canId : Z) (payload : list Byte.byte) (s : State) :
  forwardCANMessageToECU canId payload s =
    (Done tt, s, forwarding_log implemented_ranges canId).
Proof.
  unfold forwardCANMessageToECU, forwarding_log, implemented_ranges. cbn [category].
  destruct ((256 <=? canId) && (canId <=? 511)); [reflexivity|].
  destruct ((512 <=? canId) && (canId <=? 767)); reflexivity.
Qed.

Lemma published_app (t u : list Event) :
  published (t ++ u) = (published t ++ published u)%list.
Proof.
  induction t as [|e t IH]; [reflexivity|].
  destruct e as [ | op reply | | | | | | | ]; try exact IH.
  destruct op; try exact IH.
  destruct reply; [| exact IH].
  cbn [published app]. now rewrite IH.
Qed.

Lemma published_forwarding_log (canId : Z) :
  published (forwarding_log implemented_ranges canId) = [].
Proof.
  unfold forwarding_log. destruct (category implemented_ranges canId); reflexivity.
Qed.


(** ** The singleton accessor *)

Lemma instance_alone (m : Singleton.Memory) :
  Singleton.run [0; 0; 0; 0]%nat m [Singleton.AtTest] =
    (fst (Singleton.instance m), [Singleton.Returned (snd (Singleton.instance m))]).
Proof.
  unfold Singleton.instance.
  cbn [Singleton.run nth_error Singleton.step Singleton.set_nth].
  destruct (Singleton.instance_ptr m) eqn:P.
  - cbn [Singleton.run nth_error Singleton.step Singleton.set_nth fst snd].
    rewrite P. reflexivity.
  - reflexivity.
Qed.

Lemma instance_initialised (m : Singleton.Memory) (p : nat) :
  Singleton.instance_ptr m = Some p -> Singleton.instance m = (m, Some p).
Proof.
  intros P. unfold Singleton.instance. rewrite P. cbv zeta. rewrite P. reflexivity.
Qed.

Lemma calls_initialised (n : nat) (m : Singleton.Memory) (p : nat) :
  Singleton.instance_ptr m = Some p -> Singleton.calls n m = (m, repeat (Some p) n).
Proof.
  intros P. induction n as [|n IH]; cbn [Singleton.calls repeat].
  - reflexivity.
  - rewrite (instance_initialised m p P), IH. reflexivity.
Qed.

(** One caller after the other: every call returns the address of the
    one listener that was constructed, and nothing is deleted. *)
Lemma instance_sequential (n : nat) :
  let (m, rs) := Singleton.calls (S n) Singleton.boot in
  rs = repeat (Some 1%nat) (S n)
  /\ Singleton.constructed m = [1%nat]
  /\ Singleton.deleted m = [].
Proof.
  cbn [Singleton.calls]. unfold Singleton.instance, Singleton.boot.
  cbn [Singleton.instance_ptr Singleton.construct Singleton.reset Singleton.next_address].
  rewrite (calls_initialised n _ 1%nat) by reflexivity.
  cbn [repeat]. repeat split.
Qed.

(** C8.  Two callers racing the first access: both find the static
    pointer null before either has stored, so both construct a listener.
    The second [reset] deletes the first listener, whose address the
    first caller has already been given: two initialisations, two
    different pointers, one of them dangling. *)
Theorem instance_first_access_race :
  let (m, ts) :=
    Singleton.run [0; 1; 0; 0; 0; 1; 1; 1]%nat Singleton.boot
      [Singleton.AtTest; Singleton.AtTest] in
  ts = [Singleton.Returned (Some 1%nat); Singleton.Returned (Some 2%nat)]
  /\ Singleton.constructed m = [1%nat; 2%nat]
  /\ Singleton.deleted m = [1%nat]
  /\ Singleton.instance_ptr m = Some 2%nat.
Proof.
  cbv. repeat split.
Qed.

(** C1, counterexample.  A connected connector, a payload of exactly
    eight bytes, and [sendMessage] answers [false]: the kernel refused
    the [write]. *)
Lemma sendMessage_eight_bytes_write_fails :
  let s := state_of (connect (client_state world_write_fails "vcan0")) in
  result_of (isConnected s) = Done true
  /\ List.length bytes8 = 8%nat
  /\ result_of (sendMessage 0x123 bytes8 s) = Done false
  /\ events_of (sendMessage 0x123 bytes8 s) =
       [Sys (Write 3 {| can_id := 0x123; can_dlc := 8; data := bytes8 |}) (-1);
        ErrorCb "Failed to send CAN message: No buffer space available"].
Proof.
  cbv zeta. repeat split; vm_compute; reflexivity.
Qed.

(** C2, counterexample.  A connected connector whose reader meets a
    failing [select]: the loop ends, the error slot is invoked, and
    [isConnected] still answers [true]. *)
Lemma reader_failure_leaves_connected :
  let s := state_of (connect (client_state world_select_fails "vcan0")) in
  let out := readThreadFunction 2 s in
  result_of (isConnected s) = Done true
  /\ result_of out = Done tt
  /\ events_of out = [Sys (Select 3) (-1); ErrorCb "Select error: Bad file descriptor"]
  /\ result_of (isConnected (state_of out)) = Done true.
Proof.
  cbv zeta. repeat split; vm_compute; reflexivity.
Qed.



(** C7, counterexample.  Connecting to an interface that does not
    exist: the message handed to the error slot does not contain the
    interface name. *)
Lemma connect_message_omits_interface_name :
  let out := connect (client_state world_no_device "nocan0") in
  result_of out = Done false
  /\ events_of out =
       [Sys (Socket PF_CAN) 3; Sys (Ioctl 3 "nocan0") (-1); Sys (Close 3) 0;
        ErrorCb "Failed to setup CAN socket: No such device"]
  /\ contains "nocan0" "Failed to setup CAN socket: No such device" = false.
Proof.
  cbv zeta. repeat split; vm_compute; reflexivity.
Qed.

(** ** Instances *)

Lemma sendMessage_size_boundary_witness :
  m_connected (conn (perform CallConnect (client_state world_up "vcan0")))
  && (0 <=? m_socket (conn (perform CallConnect (client_state world_up "vcan0")))) = true.
Proof.
  apply (sendMessage_size_boundary
           (perform CallConnect (client_state world_up "vcan0")) 0x123 bytes8).
  - apply reach_call, reach_client.
  - reflexivity.
Defined.

Lemma reader_hard_failure_stops_loop_witness :
  result_of (readThreadFunction 1
               (state_of (connect (client_state world_select_fails "vcan0")))) = Done tt.
Proof.
  apply (reader_hard_failure_stops_loop 0
           (state_of (connect (client_state world_select_fails "vcan0")))).
  - reflexivity.
  - reflexivity.
Defined.




Lemma bus_methods_delegate_witness :
  result_of (GetStatus (state_of (connect (client_state world_up "vcan0")))) =
    Done "Connected".
Proof.
  apply (bus_methods_delegate 0 (client_state world_up "vcan0") 0x123 bytes8).
  reflexivity.
Defined.

Lemma connect_failure_message_witness :
  events_of (connect (client_state world_no_device "nocan0")) =
    [Sys (Socket PF_CAN) 3; Sys (Ioctl 3 "nocan0") (-1); Sys (Close 3) 0;
     ErrorCb "Failed to setup CAN socket: No such device"].
Proof.
  apply (connect_failure_message (client_state world_no_device "nocan0") AtIoctl).
  - reflexivity.
  - vm_compute. lia.
  - reflexivity.
Defined.

Lemma sendMessage_connection_check_first_witness :
  sendMessage 0x123 (bytes8 ++ bytes8) (client_state world_up "vcan0") =
    (Done false, client_state world_up "vcan0", [ErrorCb "CAN socket not connected"]).
Proof.
  apply (sendMessage_connection_check_first
           (client_state world_up "vcan0") 0x123 (bytes8 ++ bytes8)).
  reflexivity.
Defined.

Lemma setInterfaceName_same_name_noop_witness :
  setInterfaceName 1 "vcan0" (state_of (connect (client_state world_up "vcan0"))) =
    (Done tt, state_of (connect (client_state world_up "vcan0")), []).
Proof.
  apply (setInterfaceName_same_name_noop 1
           (state_of (connect (client_state world_up "vcan0"))) "vcan0").
  reflexivity.
Defined.

(** ** Runs of the repository's scenarios *)

(** tests/test_can_connector.cpp, SendMessage. *)
Example test_SendMessage :
  let out := sendMessage 0x123 [Byte.x01; Byte.x02; Byte.x03; Byte.x04]
               (state_of (connect (client_state world_sends "vcan0"))) in
  result_of out = Done true
  /\ events_of out =
       [Sys (Write 3 {| can_id := 0x123; can_dlc := 4;
                        data := [Byte.x01; Byte.x02; Byte.x03; Byte.x04] |}) 16;
        Stdout "Sent CAN message - ID: 0x123 Data: 01 02 03 04 "].
Proof. cbv zeta. split; vm_compute; reflexivity. Qed.

(** tests/test_can_connector.cpp, SendOversizedMessage. *)
Example test_SendOversizedMessage :
  let out := sendMessage 0x123 (repeat Byte.xff 9)
               (state_of (connect (client_state world_up "vcan0"))) in
  result_of out = Done false
  /\ events_of out = [ErrorCb "Data too large: 9 bytes (max: 8)"].
Proof. cbv zeta. split; vm_compute; reflexivity. Qed.

(** A frame with identifier 0x123 and four bytes arrives on a started
    listener: one pass of the reader hands it to the listener, which emits
    the bus signal and prints the engine forwarding line. *)
Example frame_reaches_the_bus :
  events_of (run_readThread 1 (state_of (start (CANListener_new world_frame_arrives)))) =
    [Sys (Select 3) 1; Sys (Read 3) 16;
     MessageCb 0x123 [Byte.x01; Byte.x02; Byte.x03; Byte.x04];
     Bus (CreateSignal "org.example.DMS.CAN" "CANMessageReceived") BusOk;
     Bus (EmitSignal "org.example.DMS.CAN" "CANMessageReceived" 0x123
            [Byte.x01; Byte.x02; Byte.x03; Byte.x04] 1700000000000000) BusOk;
     Stdout "Emitted D-Bus signal CANMessageReceived with canId=0x123";
     Stdout "Forwarding engine message to ECU - ID: 0x123";
     Stdout "CAN message received - ID: 0x123 Data: 01 02 03 04 ";
     Stdout "Received CAN message - ID: 0x123 Data: 01 02 03 04 "].
Proof. vm_compute. reflexivity. Qed.

(** [stop] after a [start] whose bus set-up failed at [requestName]:
    there is a bus connection but no bus thread; the bus refuses both
    [leaveEventLoop] and [releaseName], a warning is printed for each,
    and [stop] goes through to its last line. *)
Example stop_after_a_failed_start :
  let out := stop 1 (state_of (start (CANListener_new world_bus_refuses))) in
  result_of out = Done tt
  /\ events_of out =
       [Stdout "Stopping CAN Listener service...";
        ThreadJoin; Sys (Close 3) 0; StatusCb false;
        Stdout "CAN interface disconnected";
        Stdout "Disconnected from CAN interface: vcan0";
        Bus LeaveEventLoop (BusThrow (SdbusError "Connection is closed"));
        Stderr "Warning: Failed to leave D-Bus event loop: Connection is closed";
        Bus (ReleaseName "org.example.DMS.CAN")
          (BusThrow (SdbusError "Connection is closed"));
        Stderr "Warning: Failed to release D-Bus name: Connection is closed";
        Stdout "CAN Listener service stopped"].
Proof. cbv zeta. split; vm_compute; reflexivity. Qed.

(** * Further properties of the connector *)

(** ** connect and disconnect *)

Lemma connect_keeps_name (s : State) :
  m_interfaceName (conn (state_of (connect s))) = m_interfaceName (conn s).
Proof.
  destruct (m_connected (conn s)) eqn:C.
  - now rewrite (connect_already_connected s C).
  - destruct (failing_step s) as [step|] eqn:F.
    + now destruct (connect_failure s step C F) as (_ & _ & _ & _ & _ & N).
    + unfold failing_step in F. unfold connect, setupSocket. mrun. rewrite C. mrun.
      destruct (sr_ret (kernel (world s) (nsys s)) <? 0); [discriminate F|]. mrun.
      destruct (sr_ret (kernel (world s) (S (nsys s))) <? 0); [discriminate F|]. mrun.
      destruct (sr_ret (kernel (world s) (S (S (nsys s)))) <? 0); [discriminate F|].
      mrun. rewrite fire_status_run. mrun. reflexivity.
Qed.

Lemma connect_returns (s : State) :
  result_of (connect s) =
    Done (m_connected (conn s) || match failing_step s with None => true | _ => false end).
Proof.
  destruct (m_connected (conn s)) eqn:C.
  - now rewrite (connect_already_connected s C).
  - destruct (failing_step s) as [step|] eqn:F.
    + now destruct (connect_failure s step C F) as (R & _).
    + now destruct (connect_success s C F) as (R & _).
Qed.

Lemma connect_flag (s : State) :
  m_connected (conn (state_of (connect s))) =
    m_connected (conn s) || match failing_step s with None => true | _ => false end.
Proof.
  destruct (m_connected (conn s)) eqn:C.
  - rewrite (connect_already_connected s C). exact C.
  - destruct (failing_step s) as [step|] eqn:F.
    + now destruct (connect_failure s step C F) as (_ & _ & MC & _).
    + now destruct (connect_success s C F) as (_ & _ & MC & _).
Qed.

(** X1.  A [connect] on a disconnected connector (no reader thread
    left to join, a name that fits [ifr_name]) whose three set-up calls
    the kernel accepts makes exactly those calls ([socket], the
    interface-index [ioctl] on the configured name, [bind] to the index
    the [ioctl] returned), stores the descriptor, sets the flag, clears
    the stop flag, starts the reader thread, and only then invokes the
    status slot, once, with [true]; the error slot is not invoked. *)
Theorem connect_establishes (s : State)
  (C : m_connected (conn s) = false)
  (J : joinable (m_readThread (conn s)) = false)
  (N : (String.length (m_interfaceName (conn s)) < IFNAMSIZ)%nat)
  (F : failing_step s = None) :
  let k := kernel (world s) in
  let n := nsys s in
  let fd := sr_ret (k n) in
  let name := m_interfaceName (conn s) in
  let out := connect s in
  result_of out = Done true
  /\ events_of out =
       ([Sys (Socket PF_CAN) fd; Sys (Ioctl fd name) (sr_ret (k (S n)));
         Sys (Bind fd {| can_family := AF_CAN; can_ifindex := sr_ifindex (k (S n)) |})
           (sr_ret (k (S (S n))));
         ThreadStart] ++ status_events (m_statusCallback (conn s)) true ++
        [Stdout ("Connected to CAN interface: " ++ name)])%list
  /\ 0 <= fd
  /\ m_socket (conn (state_of out)) = fd
  /\ m_connected (conn (state_of out)) = true
  /\ m_shouldStop (conn (state_of out)) = false
  /\ m_readThread (conn (state_of out)) = Some Running
  /\ nsys (state_of out) = S (S (S n)).
Proof.
  cbv zeta.
  destruct (connect_success s C F) as (R & E & MC & MS & P & ST & T).
  rewrite R, E, MC, MS, ST, T. rewrite MS in P.
  unfold setup_log. rewrite F.
  repeat split; try reflexivity; try exact P.
  unfold failing_step in F. unfold connect, setupSocket. mrun. rewrite C. mrun.
  destruct (sr_ret (kernel (world s) (nsys s)) <? 0); [discriminate F|]. mrun.
  destruct (sr_ret (kernel (world s) (S (nsys s))) <? 0); [discriminate F|]. mrun.
  destruct (sr_ret (kernel (world s) (S (S (nsys s)))) <? 0); [discriminate F|].
  mrun. rewrite fire_status_run. mrun. reflexivity.
Qed.

(** X2.  A [disconnect] on a connected connector, once the reader is
    granted a loop-head check, returns after joining the reader (when
    there is one to join), closing the descriptor (when it is valid) with
    a single [close], clearing the flag and invoking the status slot once
    with [false], in that order.  It makes no other system call and does
    not invoke the error or the message slot; afterwards the descriptor
    is invalid and no thread is left to join. *)
Theorem disconnect_tears_down (fuel : nat) (s : State)
  (C : m_connected (conn s) = true) :
  let c := conn s in
  let out := disconnect (S fuel) s in
  result_of out = Done tt
  /\ events_of out =
       ((if joinable (m_readThread c) then [ThreadJoin] else []) ++
        (if 0 <=? m_socket c
         then [Sys (Close (m_socket c)) (sr_ret (kernel (world s) (nsys s)))] else []) ++
        status_events (m_statusCallback c) false ++
        [Stdout ("Disconnected from CAN interface: " ++ m_interfaceName c)])%list
  /\ m_connected (conn (state_of out)) = false
  /\ m_socket (conn (state_of out)) < 0
  /\ joinable (m_readThread (conn (state_of out))) = false
  /\ m_shouldStop (conn (state_of out)) = true
  /\ m_interfaceName (conn (state_of out)) = m_interfaceName c.
Proof.
  cbv zeta.
  destruct (disconnect_connected fuel s C) as (R & E & MC & MS & J & _).
  rewrite R, E, MC, J. unfold disconnect_log.
  repeat split; try reflexivity; try exact MS.
  - unfold disconnect, join_readThread, cleanupSocket. mrun. rewrite C.
    destruct (m_readThread (conn s)) as [[ | | ]|] eqn:T;
      destruct (0 <=? m_socket (conn s)) eqn:Sk;
      cbn [joinable];
      repeat (mrun; rewrite ?T, ?Sk, ?fire_status_run;
              try (rewrite readThreadFunction_stopped by reflexivity));
      reflexivity.
  - unfold disconnect, join_readThread, cleanupSocket. mrun. rewrite C.
    destruct (m_readThread (conn s)) as [[ | | ]|] eqn:T;
      destruct (0 <=? m_socket (conn s)) eqn:Sk;
      cbn [joinable];
      repeat (mrun; rewrite ?T, ?Sk, ?fire_status_run;
              try (rewrite readThreadFunction_stopped by reflexivity));
      reflexivity.
Qed.

(** X3.  Disconnecting and connecting again re-establishes the
    connection: when the kernel accepts the three set-up calls that
    follow the teardown, the connector ends connected on the descriptor
    the new [socket] call returned, with the stop flag cleared again and
    a fresh reader thread running. *)
Theorem reconnect_after_disconnect (fuel : nat) (s : State)
  (C : m_connected (conn s) = true)
  (F : failing_step (state_of (disconnect (S fuel) s)) = None) :
  let s1 := state_of (disconnect (S fuel) s) in
  let out := (disconnect (S fuel) ;; connect) s in
  result_of out = Done true
  /\ events_of out = (events_of (disconnect (S fuel) s) ++ events_of (connect s1))%list
  /\ m_connected (conn (state_of out)) = true
  /\ m_socket (conn (state_of out)) = sr_ret (kernel (world s1) (nsys s1))
  /\ 0 <= m_socket (conn (state_of out))
  /\ m_shouldStop (conn (state_of out)) = false
  /\ m_readThread (conn (state_of out)) = Some Running.
Proof.
  cbv zeta.
  destruct (disconnect_connected fuel s C) as (R & _ & MC & _).
  destruct (connect_success _ MC F) as (R1 & _ & MC1 & MS1 & P1 & ST1 & T1).
  unfold bind, result_of, state_of, events_of in *.
  destruct (disconnect (S fuel) s) as [[r s1] t1]. cbn [fst snd] in *. subst r.
  destruct (connect s1) as [[r2 s2] t2]. cbn [fst snd] in *.
  repeat split; assumption.
Qed.

(** ** setInterfaceName and interfaceName *)

Lemma setInterfaceName_other_name (fuel : nat) (s : State) (name : string)
  (N : m_interfaceName (conn s) <> name) :
  (m_connected (conn s) = false ->
     setInterfaceName fuel name s = (Done tt, with_conn (set_interfaceName name) s, []))
  /\ (m_connected (conn s) = true ->
      let s1 := with_conn (set_interfaceName name) (state_of (disconnect (S fuel) s)) in
      let out := setInterfaceName (S fuel) name s in
      result_of out = Done tt
      /\ state_of out = state_of (connect s1)
      /\ events_of out = (events_of (disconnect (S fuel) s) ++ events_of (connect s1))%list
      /\ m_interfaceName (conn (state_of out)) = name
      /\ m_connected (conn (state_of out)) =
           match failing_step s1 with None => true | _ => false end).
Proof.
  apply String.eqb_neq in N.
  split; intros C.
  - unfold setInterfaceName. mrun. rewrite N, C. reflexivity.
  - cbv zeta.
    destruct (disconnect_connected fuel s C) as (R & _ & MC & _).
    set (s1 := with_conn (set_interfaceName name) (state_of (disconnect (S fuel) s))).
    assert (MC1 : m_connected (conn s1) = false) by exact MC.
    pose proof (connect_returns s1) as R1.
    pose proof (connect_keeps_name s1) as N1.
    pose proof (connect_flag s1) as F1.
    rewrite MC1 in R1, F1. cbn [orb] in R1, F1.
    subst s1.
    unfold setInterfaceName. mrun. rewrite N, C. mrun.
    unfold result_of, state_of, events_of in *.
    destruct (disconnect (S fuel) s) as [[r s1] t1]. cbn [fst snd] in *. subst r.
    mrun.
    destruct (connect (with_conn (set_interfaceName name) s1)) as [[r2 s2] t2].
    cbn [fst snd] in *. subst r2. mrun. rewrite ?app_nil_r.
    repeat split; assumption.
Qed.

(** X4.  [setInterfaceName] with a name other than the configured one.
    On a disconnected connector it only stores the name: no system call,
    no callback.  On a connected connector, for a new name that fits
    [ifr_name], it is [disconnect], the store of the name, then [connect]
    under the new name; the function has no result, so a reconnect that
    fails leaves the connector disconnected under the new name: it ends
    connected exactly when the set-up calls after the teardown are all
    accepted. *)
Theorem setInterfaceName_new_name (fuel : nat) (s : State) (name : string)
  (N : m_interfaceName (conn s) <> name) :
  (m_connected (conn s) = false ->
     setInterfaceName fuel name s = (Done tt, with_conn (set_interfaceName name) s, []))
  /\ (m_connected (conn s) = true ->
      (String.length name < IFNAMSIZ)%nat ->
      let s1 := with_conn (set_interfaceName name) (state_of (disconnect (S fuel) s)) in
      let out := setInterfaceName (S fuel) name s in
      result_of out = Done tt
      /\ state_of out = state_of (connect s1)
      /\ events_of out = (disconnect_log s ++ connect_log s1)%list
      /\ m_interfaceName (conn (state_of out)) = name
      /\ m_connected (conn (state_of out)) =
           match failing_step s1 with None => true | _ => false end).
Proof.
  destruct (setInterfaceName_other_name fuel s name N) as (A & B).
  split; [exact A | intros C _].
  destruct (B C) as (R & S1 & E & MN & MC).
  destruct (disconnect_connected fuel s C) as (_ & LG & _).
  cbv zeta. rewrite E, LG, connect_events. auto.
Qed.

(** X5.  What [setInterfaceName] stores, [interfaceName] returns: for
    a name that fits [ifr_name], [setInterfaceName] returns, and after it,
    whatever the state before and whether or not a reconnect succeeded,
    the configured name is the one given. *)
Theorem interfaceName_after_setInterfaceName (fuel : nat) (s : State) (name : string)
  (L : (String.length name < IFNAMSIZ)%nat) :
  result_of (setInterfaceName (S fuel) name s) = Done tt
  /\ result_of (interfaceName (state_of (setInterfaceName (S fuel) name s))) = Done name.
Proof.
  assert (I : forall s', interfaceName s' = (Done (m_interfaceName (conn s')), s', []))
    by reflexivity.
  rewrite I. unfold result_of at 2. cbn [fst].
  destruct (String.eqb (m_interfaceName (conn s)) name) eqn:E.
  - apply String.eqb_eq in E.
    unfold setInterfaceName. mrun. rewrite E, String.eqb_refl. mrun.
    split; [reflexivity | now rewrite E].
  - apply String.eqb_neq in E.
    destruct (m_connected (conn s)) eqn:C.
    + destruct (proj2 (setInterfaceName_other_name fuel s name E) C)
        as (R & _ & _ & N & _).
      split; [exact R | now rewrite N].
    + rewrite (proj1 (setInterfaceName_other_name (S fuel) s name E) C).
      split; reflexivity.
Qed.

(** ** The connection invariant *)

Lemma maintains_keeps (I : CANConnector -> Prop) {A} (m : M A) :
  keeps_conn m -> maintains I m.
Proof.
  intros K s H. now rewrite (K s).
Qed.

Lemma maintains_bind (I : CANConnector -> Prop) {A B} (m : M A) (f : A -> M B) :
  maintains I m -> (forall a, maintains I (f a)) -> maintains I (bind m f).
Proof.
  intros Hm Hf s V. unfold bind, state_of.
  specialize (Hm s V). unfold state_of in Hm.
  destruct (m s) as [[r s1] t1]. cbn [fst snd] in *.
  destruct r as [a | e | ]; cbn [fst snd]; try exact Hm.
  specialize (Hf a s1 Hm). unfold state_of in Hf.
  destruct (f a s1) as [[r2 s2] t2]. cbn [fst snd] in *. exact Hf.
Qed.

Lemma invariant_connect : maintains connection_invariant connect.
Proof.
  intros s V. unfold connection_invariant in *.
  destruct (m_connected (conn s)) eqn:C.
  - rewrite (connect_already_connected s C). unfold state_of. cbn [fst snd].
    now rewrite C.
  - destruct (failing_step s) as [step|] eqn:F.
    + destruct (connect_failure s step C F) as (_ & _ & MC & MS & MT & _).
      rewrite MC, MS, MT. split; [|apply V].
      destruct step; try lia. now apply failing_step_socket.
    + destruct (connect_success s C F) as (_ & _ & MC & _ & P & _ & T).
      rewrite MC, T. split; [exact P | reflexivity].
Qed.

Lemma invariant_disconnect (fuel : nat) : maintains connection_invariant (disconnect fuel).
Proof.
  intros s V. unfold connection_invariant in *.
  destruct (m_connected (conn s)) eqn:C.
  - destruct fuel as [|fuel].
    + destruct V as (P & J).
      unfold disconnect, join_readThread, cleanupSocket. mrun. rewrite C.
      apply Z.leb_le in P.
      destruct (m_readThread (conn s)) as [[ | | ]|] eqn:T; try discriminate J;
        cbn [joinable readThreadFunction];
        repeat (mrun; rewrite ?T, ?P, ?C, ?fire_status_run);
        cbn [joinable]; split; solve [reflexivity | lia | now apply Z.leb_le].
    + destruct (disconnect_connected fuel s C) as (_ & _ & MC & MS & J & _).
      rewrite MC. split; assumption.
  - rewrite (disconnect_not_connected fuel s C). unfold state_of. cbn [fst snd].
    now rewrite C.
Qed.

Lemma invariant_setInterfaceName (fuel : nat) (name : string) :
  maintains connection_invariant (setInterfaceName fuel name).
Proof.
  pose proof invariant_connect. pose proof (invariant_disconnect fuel).
  assert (Hn : maintains connection_invariant (assign (set_interfaceName name)))
    by (intros s V; exact V).
  assert (Hr : forall (A : Type) (a : A), maintains connection_invariant (ret a))
    by (intros A a s V; exact V).
  unfold setInterfaceName, when.
  apply maintains_bind; [apply maintains_keeps, keeps_this | intros c].
  destruct (negb (m_interfaceName c =? name)%string); [|apply Hr].
  cbv zeta.
  destruct (m_connected c);
    repeat first [ assumption | apply Hr | apply maintains_bind; [| intros ?] ].
Qed.

Lemma invariant_start : maintains connection_invariant start.
Proof.
  pose proof invariant_connect.
  unfold start, stdout, stderr.
  apply maintains_bind; [apply maintains_keeps; auto with frame | intros _].
  apply maintains_bind; [apply maintains_keeps, keeps_setupDBusInterface | intros _].
  apply maintains_bind; [assumption | intros ok].
  destruct (negb ok); apply maintains_keeps; auto with frame.
Qed.

Lemma invariant_stop (fuel : nat) : maintains connection_invariant (stop fuel).
Proof.
  pose proof (invariant_disconnect fuel).
  assert (K1 : forall v, keeps_conn (modify (set_dbusConnection v)))
    by (intros v s; reflexivity).
  assert (K2 : forall v, keeps_conn (modify (set_dbusObject v)))
    by (intros v s; reflexivity).
  assert (K3 : forall v, keeps_conn (modify (set_dbusThread v)))
    by (intros v s; reflexivity).
  unfold stop, stdout.
  apply maintains_bind; [apply maintains_keeps; auto with frame | intros _].
  apply maintains_bind; [assumption | intros _].
  apply maintains_keeps. unfold when, leaveEventLoop, join_dbusThread, stderr. frame.
Qed.

Lemma invariant_run_readThread (fuel : nat) :
  maintains connection_invariant (run_readThread fuel).
Proof.
  intros s V. unfold run_readThread. mrun.
  destruct (m_readThread (conn s)) as [[ | | ]|] eqn:T; try exact V.
  pose proof (keeps_readThreadFunction fuel s) as K.
  unfold state_of in *. destruct (readThreadFunction fuel s) as [[r s1] t1].
  cbn [fst snd] in *.
  destruct r; mrun; unfold connection_invariant in *; mrun; rewrite K;
    try exact V.
  rewrite T in V. cbn [joinable] in *.
  destruct (m_connected (conn s)); exact V.
Qed.

(** X6.  In every state the process gets into (a constructed connector
    or listener, then any sequence of calls and reader runs, including
    calls that fail and teardowns still waiting for the reader), the
    flag, the descriptor and the reader thread agree: connected means a
    valid descriptor and a thread to join; disconnected means an invalid
    descriptor, so none is leaked, and no thread left to join, so
    [connect] never replaces a thread that has not been joined. *)
Theorem reachable_connection_invariant (s : State) :
  reachable s -> connection_invariant (conn s).
Proof.
  induction 1 as [w name | w | s c R IH].
  - cbn. split; [lia | reflexivity].
  - cbn. split; [lia | reflexivity].
  - destruct c; cbn [perform].
    + now apply invariant_connect.
    + now apply invariant_disconnect.
    + now rewrite (keeps_sendMessage canId payload s).
    + now apply invariant_setInterfaceName.
    + exact IH.
    + exact IH.
    + exact IH.
    + now apply invariant_start.
    + now apply invariant_stop.
    + exact IH.
    + now apply invariant_run_readThread.
Qed.

(** ** sendMessage, further *)

(** X7.  [sendMessage] never touches the connection: whatever the
    payload and whatever the kernel answers to the [write], the connector
    object is unchanged, so a failed send does not disconnect and
    [isConnected] answers as before, and neither the status slot nor the
    message slot is invoked. *)
Theorem sendMessage_leaves_connection (s : State) (canId : Z) (payload : list Byte.byte) :
  let out := sendMessage canId payload s in
  conn (state_of out) = conn s
  /\ result_of (isConnected (state_of out)) = Done (m_connected (conn s))
  /\ filter is_status (events_of out) = []
  /\ message_calls (events_of out) = [].
Proof.
  cbv zeta.
  pose proof (keeps_sendMessage canId payload s) as K.
  rewrite isConnected_run, K.
  split; [reflexivity|]. split; [reflexivity|].
  assert (Q : forall cb msg, filter is_status (error_events cb msg) = []
                             /\ message_calls (error_events cb msg) = [])
    by (intros [ | | ] msg; split; reflexivity).
  destruct (negb (m_connected (conn s)) || (m_socket (conn s) <? 0)) eqn:G.
  - rewrite (sendMessage_not_connected s canId payload G). apply Q.
  - destruct (CAN_MAX_DLEN <? List.length payload)%nat eqn:L.
    + rewrite (sendMessage_too_large s canId payload G L). apply Q.
    + rewrite (sendMessage_written s canId payload G L).
      unfold events_of, message_calls. cbn [snd filter is_status is_message].
      destruct (sr_ret (kernel (world s) (nsys s)) =? sizeof_can_frame).
      * split; reflexivity.
      * apply Q.
Qed.

(** X8.  A [write] that returns a count other than the frame size
    without failing (a short write) makes [sendMessage] answer [false]
    like a failed one, but the kernel has set no [errno]: the text handed
    to the error slot is the C library's text for whatever [errno] an
    earlier call had left. *)
Theorem sendMessage_short_write (s : State) (canId : Z) (payload : list Byte.byte)
  (C : m_connected (conn s) = true) (P : 0 <= m_socket (conn s))
  (L : (List.length payload <= CAN_MAX_DLEN)%nat)
  (W0 : 0 <= sr_ret (kernel (world s) (nsys s)))
  (W1 : sr_ret (kernel (world s) (nsys s)) <> sizeof_can_frame) :
  let r := kernel (world s) (nsys s) in
  let frame := {| can_id := canId; can_dlc := List.length payload; data := payload |} in
  let out := sendMessage canId payload s in
  result_of out = Done false
  /\ events_of out =
       Sys (Write (m_socket (conn s)) frame) (sr_ret r) ::
       error_events (m_errorCallback (conn s))
         ("Failed to send CAN message: " ++ strerror (world s) (errno s))
  /\ errno (state_of out) = errno s.
Proof.
  cbv zeta.
  assert (G : negb (m_connected (conn s)) || (m_socket (conn s) <? 0) = false).
  { rewrite C. cbn [negb orb]. now apply Z.ltb_ge. }
  assert (L' : (CAN_MAX_DLEN <? List.length payload)%nat = false)
    by now apply Nat.ltb_ge.
  rewrite (sendMessage_written s canId payload G L').
  apply Z.eqb_neq in W1. apply Z.ltb_ge in W0.
  unfold result_of, events_of, state_of. cbn [fst snd].
  rewrite W1. unfold with_kernel_reply. cbn [errno]. rewrite W0.
  repeat split; reflexivity.
Qed.

(** ** The reader loop, further *)

Lemma reader_body_uneventful (s : State) :
  uneventful_pass s = true ->
  let sel := kernel (world s) (nsys s) in
  let rd := kernel (world s) (S (nsys s)) in
  let fd := m_socket (conn s) in
  result_of (reader_body s) = Done true
  /\ events_of (reader_body s) =
       (if (0 <? sr_ret sel) && sr_isset sel
        then [Sys (Select fd) (sr_ret sel); Sys (Read fd) (sr_ret rd)]
        else [Sys (Select fd) (sr_ret sel)])
  /\ nsys (state_of (reader_body s)) =
       (if (0 <? sr_ret sel) && sr_isset sel then S (S (nsys s)) else S (nsys s))
  /\ world (state_of (reader_body s)) = world s.
Proof.
  unfold uneventful_pass, reader_body. mrun.
  destruct ((0 <? sr_ret (kernel (world s) (nsys s)))
            && sr_isset (kernel (world s) (nsys s))) eqn:Sel; intros U.
  - apply andb_prop in U. destruct U as (U1 & U2).
    apply negb_true_iff in U1. apply negb_true_iff in U2.
    mrun. rewrite U1, U2. repeat split; reflexivity.
  - apply negb_true_iff in U. mrun. rewrite U. repeat split; reflexivity.
Qed.

(** X9.  A pass of the reader loop in which [select] times out, or in
    which [read] returns a count that is neither a whole frame nor an
    error (zero bytes, a partial frame), is dropped silently: no slot is
    invoked, nothing is printed, the only effects are the one or two
    system calls, and the loop goes on with the next pass. *)
Theorem reader_uneventful_pass_continues (fuel : nat) (s : State)
  (Hstop : m_shouldStop (conn s) = false)
  (U : uneventful_pass s = true) :
  let sel := kernel (world s) (nsys s) in
  let rd := kernel (world s) (S (nsys s)) in
  let fd := m_socket (conn s) in
  let pass := reader_body s in
  events_of pass =
    (if (0 <? sr_ret sel) && sr_isset sel
     then [Sys (Select fd) (sr_ret sel); Sys (Read fd) (sr_ret rd)]
     else [Sys (Select fd) (sr_ret sel)])
  /\ conn (state_of pass) = conn s
  /\ readThreadFunction (S fuel) s =
       (result_of (readThreadFunction fuel (state_of pass)),
        state_of (readThreadFunction fuel (state_of pass)),
        (events_of pass ++ events_of (readThreadFunction fuel (state_of pass)))%list).
Proof.
  cbv zeta.
  destruct (reader_body_uneventful s U) as (R & E & _).
  split; [exact E|]. split; [apply keeps_reader_body|].
  rewrite readThreadFunction_step, Hstop.
  unfold result_of, state_of, events_of in *.
  destruct (reader_body s) as [[r s1] t1]. cbn [fst snd] in *. subst r.
  destruct (readThreadFunction fuel s1) as [[r2 s2] t2]. reflexivity.
Qed.

Lemma reader_body_frame (s : State) :
  m_messageCallback (conn s) = ClientCallback ->
  (0 <? sr_ret (kernel (world s) (nsys s))) && sr_isset (kernel (world s) (nsys s)) = true ->
  sr_ret (kernel (world s) (S (nsys s))) = sizeof_can_frame ->
  let f := sr_frame (kernel (world s) (S (nsys s))) in
  let fd := m_socket (conn s) in
  result_of (reader_body s) = Done true
  /\ events_of (reader_body s) =
       [Sys (Select fd) (sr_ret (kernel (world s) (nsys s)));
        Sys (Read fd) sizeof_can_frame;
        delivered f;
        Stdout ("Received CAN message - ID: 0x" ++ hex (can_id f) ++ " Data: "
                ++ dump (firstn (can_dlc f) (data f)))]
  /\ nsys (state_of (reader_body s)) = S (S (nsys s))
  /\ world (state_of (reader_body s)) = world s
  /\ conn (state_of (reader_body s)) = conn s.
Proof.
  intros CB Sel Rd. unfold reader_body, fire_message, delivered. mrun.
  rewrite Sel. mrun. rewrite Rd. cbn [Z.eqb sizeof_can_frame Pos.eqb]. mrun.
  rewrite CB. mrun. repeat split; reflexivity.
Qed.

(** X10.  A frame read whole is handed to the message slot once, with
    the identifier of the frame and the first [can_dlc] bytes of its data
    (never more bytes than the frame carries), after the [select] and the
    [read] and before the line the reader prints; the loop then goes on. *)
Theorem reader_delivers_frame (fuel : nat) (s : State)
  (Hstop : m_shouldStop (conn s) = false)
  (CB : m_messageCallback (conn s) = ClientCallback)
  (Sel : (0 <? sr_ret (kernel (world s) (nsys s)))
         && sr_isset (kernel (world s) (nsys s)) = true)
  (Rd : sr_ret (kernel (world s) (S (nsys s))) = sizeof_can_frame) :
  let f := sr_frame (kernel (world s) (S (nsys s))) in
  let fd := m_socket (conn s) in
  let pass := reader_body s in
  events_of pass =
    [Sys (Select fd) (sr_ret (kernel (world s) (nsys s)));
     Sys (Read fd) sizeof_can_frame;
     MessageCb (can_id f) (firstn (can_dlc f) (data f));
     Stdout ("Received CAN message - ID: 0x" ++ hex (can_id f) ++ " Data: "
             ++ dump (firstn (can_dlc f) (data f)))]
  /\ (List.length (firstn (can_dlc f) (data f)) <= can_dlc f)%nat
  /\ readThreadFunction (S fuel) s =
       (result_of (readThreadFunction fuel (state_of pass)),
        state_of (readThreadFunction fuel (state_of pass)),
        (events_of pass ++ events_of (readThreadFunction fuel (state_of pass)))%list).
Proof.
  cbv zeta.
  destruct (reader_body_frame s CB Sel Rd) as (R & E & _).
  split; [exact E|]. split; [apply firstn_le_length|].
  rewrite readThreadFunction_step, Hstop.
  unfold result_of, state_of, events_of in *.
  destruct (reader_body s) as [[r s1] t1]. cbn [fst snd] in *. subst r.
  destruct (readThreadFunction fuel s1) as [[r2 s2] t2]. reflexivity.
Qed.

Lemma message_calls_app (t u : list Event) :
  message_calls (t ++ u) = (message_calls t ++ message_calls u)%list.
Proof. apply filter_app. Qed.

Lemma reader_delivers_frames (frames : list can_frame) :
  forall (k : nat) (s : State),
    m_shouldStop (conn s) = false ->
    m_messageCallback (conn s) = ClientCallback ->
    frames_arrive (world s) (nsys s) frames ->
    exists s' t,
      readThreadFunction (List.length frames + k) s =
        (result_of (readThreadFunction k s'), state_of (readThreadFunction k s'),
         (t ++ events_of (readThreadFunction k s'))%list)
      /\ message_calls t = map delivered frames
      /\ conn s' = conn s
      /\ world s' = world s
      /\ nsys s' = (nsys s + 2 * List.length frames)%nat.
Proof.
  induction frames as [|f frames IH]; intros k s Hstop CB A.
  - exists s, []. cbn [List.length Nat.add app map message_calls filter].
    repeat split; try reflexivity; try lia.
    unfold result_of, state_of, events_of.
    now destruct (readThreadFunction k s) as [[r s2] t2].
  - cbn [frames_arrive] in A. destruct A as (Sel & Rd & Fr & A).
    destruct (reader_body_frame s CB Sel Rd) as (R & E & N & W & K).
    rewrite Fr in E.
    destruct (IH k (state_of (reader_body s))) as (s' & t & Run & Msg & K' & W' & N').
    + now rewrite K.
    + now rewrite K.
    + now rewrite W, N.
    + exists s', (events_of (reader_body s) ++ t)%list.
      split; [|split; [|split; [|split]]].
      * cbn [List.length Nat.add]. rewrite readThreadFunction_step, Hstop.
        unfold result_of, state_of, events_of in *.
        destruct (reader_body s) as [[r s1] t1]. cbn [fst snd] in *. subst r.
        rewrite Run. now rewrite app_assoc.
      * rewrite message_calls_app, Msg, E. reflexivity.
      * now rewrite K', K.
      * now rewrite W', W.
      * rewrite N', N. cbn [List.length]. lia.
Qed.

(** X11.  Frames are delivered in the order they are read, each
    exactly once: when the kernel delivers a list of whole frames on
    successive passes, the invocations of the message slot in the
    reader's log are those frames, in that order, with nothing dropped,
    merged or repeated; with fuel for exactly those passes the reader is
    still running afterwards. *)
Theorem reader_delivers_in_order (frames : list can_frame) (k : nat) (s : State)
  (Hstop : m_shouldStop (conn s) = false)
  (CB : m_messageCallback (conn s) = ClientCallback)
  (A : frames_arrive (world s) (nsys s) frames) :
  message_calls (events_of (readThreadFunction (List.length frames) s)) =
    map delivered frames
  /\ result_of (readThreadFunction (List.length frames) s) = Pending
  /\ exists later,
       message_calls (events_of (readThreadFunction (List.length frames + k) s)) =
         (map delivered frames ++ later)%list.
Proof.
  destruct (reader_delivers_frames frames 0 s Hstop CB A) as (s0 & t0 & Run0 & Msg0 & _).
  destruct (reader_delivers_frames frames k s Hstop CB A) as (s1 & t1 & Run1 & Msg1 & _).
  rewrite Nat.add_0_r in Run0. rewrite Run0, Run1.
  unfold events_of, result_of. cbn [fst snd readThreadFunction pending].
  rewrite app_nil_r, message_calls_app, Msg0, Msg1.
  split; [reflexivity|]. split; [reflexivity|].
  eexists. reflexivity.
Qed.

(** X12.  Round trip.  The frame [sendMessage] writes carries the
    identifier and the payload with [can_dlc] set to the payload's
    length; a reader to which the kernel delivers that frame, whatever
    the bytes of the data array past [can_dlc] are, hands the same
    identifier and the same payload to its message slot. *)
Theorem send_receive_round_trip
  (s : State) (canId : Z) (payload pad : list Byte.byte) (peer : State)
  (C : m_connected (conn s) = true) (P : 0 <= m_socket (conn s))
  (L : (List.length payload <= CAN_MAX_DLEN)%nat)
  (W : sr_ret (kernel (world s) (nsys s)) = sizeof_can_frame)
  (CB : m_messageCallback (conn peer) = ClientCallback)
  (Sel : (0 <? sr_ret (kernel (world peer) (nsys peer)))
         && sr_isset (kernel (world peer) (nsys peer)) = true)
  (Rd : sr_ret (kernel (world peer) (S (nsys peer))) = sizeof_can_frame)
  (Fr : sr_frame (kernel (world peer) (S (nsys peer))) =
          {| can_id := canId; can_dlc := List.length payload;
             data := (payload ++ pad)%list |}) :
  result_of (sendMessage canId payload s) = Done true
  /\ write_calls (events_of (sendMessage canId payload s)) =
       [Sys (Write (m_socket (conn s))
               {| can_id := canId; can_dlc := List.length payload; data := payload |})
            sizeof_can_frame]
  /\ message_calls (events_of (reader_body peer)) = [MessageCb canId payload].
Proof.
  assert (G : negb (m_connected (conn s)) || (m_socket (conn s) <? 0) = false).
  { rewrite C. cbn [negb orb]. now apply Z.ltb_ge. }
  assert (L' : (CAN_MAX_DLEN <? List.length payload)%nat = false)
    by now apply Nat.ltb_ge.
  rewrite (sendMessage_written s canId payload G L'), W.
  unfold result_of, events_of. cbn [fst snd].
  split; [reflexivity|]. split; [reflexivity|].
  destruct (reader_body_frame peer CB Sel Rd) as (_ & E & _).
  unfold events_of in E. rewrite E, Fr. unfold delivered.
  cbn [message_calls filter is_message can_id can_dlc data].
  rewrite firstn_app, firstn_all, Nat.sub_diag. cbn [firstn]. now rewrite app_nil_r.
Qed.

(** * Further properties of the listener *)

(** ** Frames and the bus *)

(** X13.  What a failing bus does to the handling of a received frame.
    Without a bus object (before [start], after [stop], after a failed
    set-up) no bus call is made.  An [sdbus::Error] from the creation or
    from the emission of the signal is caught and printed.  In all three
    cases the frame is still routed and its line printed, and the handler
    returns.  Any other exception, from the creation or from the
    emission, is not caught: it leaves the handler before the frame is
    routed. *)
Theorem onCANMessageReceived_bus_errors
  (s : State) (canId : Z) (payload : list Byte.byte) :
  let r0 := sessionbus (world s) (nbus s) in
  let r1 := sessionbus (world s) (S (nbus s)) in
  let timestamp := system_clock (world s) (nclock s) in
  let create := CreateSignal INTERFACE_NAME "CANMessageReceived" in
  let emit_ := EmitSignal INTERFACE_NAME "CANMessageReceived" canId payload timestamp in
  let rest := (forwarding_log implemented_ranges canId ++ [received_line canId payload])%list in
  let out := onCANMessageReceived canId payload s in
  (m_dbusObject s = None -> result_of out = Done tt /\ events_of out = rest)
  /\ (forall msg, m_dbusObject s <> None -> r0 = BusThrow (SdbusError msg) ->
      result_of out = Done tt
      /\ events_of out =
           Bus create r0 :: Stderr ("Error emitting CAN message signal: " ++ msg) :: rest)
  /\ (forall msg, m_dbusObject s <> None -> r0 = BusOk -> r1 = BusThrow (SdbusError msg) ->
      result_of out = Done tt
      /\ events_of out =
           Bus create r0 :: Bus emit_ r1 ::
           Stderr ("Error emitting CAN message signal: " ++ msg) :: rest)
  /\ (forall msg, m_dbusObject s <> None -> r0 = BusThrow (StdException msg) ->
      result_of out = Thrown (StdException msg) /\ events_of out = [Bus create r0])
  /\ (forall msg, m_dbusObject s <> None -> r0 = BusOk -> r1 = BusThrow (StdException msg) ->
      result_of out = Thrown (StdException msg)
      /\ events_of out = [Bus create r0; Bus emit_ r1]).
Proof.
  cbv zeta. unfold received_line.
  split; [|split; [|split; [|split]]].
  - intros O. unfold onCANMessageReceived. mrun. rewrite O. mrun.
    rewrite forwardCANMessageToECU_run. mrun. split; reflexivity.
  - intros msg O R0. destruct (m_dbusObject s) as [o|] eqn:Ob; [|now elim O].
    unfold onCANMessageReceived. mrun. rewrite Ob. mrun. rewrite R0. mrun.
    rewrite forwardCANMessageToECU_run. mrun. split; reflexivity.
  - intros msg O R0 R1. destruct (m_dbusObject s) as [o|] eqn:Ob; [|now elim O].
    unfold onCANMessageReceived. mrun. rewrite Ob. mrun. rewrite R0. mrun.
    rewrite R1. mrun.
    rewrite forwardCANMessageToECU_run. mrun. split; reflexivity.
  - intros msg O R0. destruct (m_dbusObject s) as [o|] eqn:Ob; [|now elim O].
    unfold onCANMessageReceived. mrun. rewrite Ob. mrun. rewrite R0. mrun.
    split; reflexivity.
  - intros msg O R0 R1. destruct (m_dbusObject s) as [o|] eqn:Ob; [|now elim O].
    unfold onCANMessageReceived. mrun. rewrite Ob. mrun. rewrite R0. mrun.
    rewrite R1. mrun.
    split; reflexivity.
Qed.

(** ** start *)

Ltac bus_case s n H :=
  let E := fresh "E" in
  let m := fresh "m" in
  destruct (sessionbus (world s) n) as [|[m|m]] eqn:E;
  [ | | exfalso; exact (H _ _ E)]; mrun.

Lemma setupDBusInterface_returns (s : State) :
  only_sdbus_errors (world s) ->
  let out := setupDBusInterface s in
  result_of out = Done tt
  /\ conn (state_of out) = conn s
  /\ world (state_of out) = world s
  /\ nsys (state_of out) = nsys s
  /\ errno (state_of out) = errno s.
Proof.
  intros H. cbv zeta.
  unfold setupDBusInterface, registerMethod, registerSignal. mrun.
  bus_case s (nbus s) H; try solve [repeat split; reflexivity].
  bus_case s (S (nbus s)) H; try solve [repeat split; reflexivity].
  bus_case s (S (S (nbus s))) H; try solve [repeat split; reflexivity].
  bus_case s (S (S (S (nbus s)))) H; try solve [repeat split; reflexivity].
  bus_case s (S (S (S (S (nbus s))))) H; try solve [repeat split; reflexivity].
  bus_case s (S (S (S (S (S (nbus s)))))) H; try solve [repeat split; reflexivity].
  bus_case s (S (S (S (S (S (S (nbus s))))))) H; try solve [repeat split; reflexivity].
  bus_case s (S (S (S (S (S (S (S (nbus s)))))))) H; solve [repeat split; reflexivity].
Qed.

Ltac bus_step s n :=
  destruct (sessionbus (world s) n) as [|[?|?]]; mrun; try reflexivity.

Lemma setupDBusInterface_log (s : State) :
  events_of (setupDBusInterface s) = bus_setup_log (world s) (nbus s) bus_setup_steps.
Proof.
  unfold setupDBusInterface, registerMethod, registerSignal, bus_setup_steps.
  cbn [bus_setup_log]. mrun.
  bus_step s (nbus s).
  bus_step s (S (nbus s)).
  bus_step s (S (S (nbus s))).
  bus_step s (S (S (S (nbus s)))).
  bus_step s (S (S (S (S (nbus s))))).
  bus_step s (S (S (S (S (S (nbus s)))))).
  bus_step s (S (S (S (S (S (S (nbus s))))))).
  bus_step s (S (S (S (S (S (S (S (nbus s)))))))).
Qed.

(** The log of a set-up whose call number [i] is the first the bus
    refuses ends with that call and the line of the handler. *)
Lemma bus_setup_log_error (w : World) (steps : list (BusOp * list Event)) :
  forall (n i : nat) (msg : string),
    (i < List.length steps)%nat ->
    (forall j, (j < i)%nat -> sessionbus w (n + j) = BusOk) ->
    sessionbus w (n + i) = BusThrow (SdbusError msg) ->
    exists before op,
      bus_setup_log w n steps =
        (before ++ [Bus op (BusThrow (SdbusError msg));
                    Stderr ("D-Bus setup error: " ++ msg)])%list.
Proof.
  induction steps as [|[op after] rest IH]; intros n i msg Hi Hok Hthrow.
  - cbn in Hi. lia.
  - cbn [bus_setup_log]. destruct i as [|i].
    + rewrite Nat.add_0_r in Hthrow. rewrite Hthrow.
      exists [], op. reflexivity.
    + pose proof (Hok 0%nat ltac:(lia)) as H0. rewrite Nat.add_0_r in H0. rewrite H0.
      destruct (IH (S n) i msg) as (before & op' & E).
      * cbn in Hi. lia.
      * intros j Hj. replace (S n + j)%nat with (n + S j)%nat by lia. apply Hok. lia.
      * replace (S n + i)%nat with (n + S i)%nat by lia. exact Hthrow.
      * rewrite E. exists (Bus op BusOk :: after ++ before)%list, op'.
        cbn [app]. now rewrite <- app_assoc.
Qed.

(** X14.  On a listener without a bus thread (freshly constructed, or
    stopped) whose connector is consistent and has a name that fits
    [ifr_name], a bus set-up that fails with [sdbus::Error] does not stop
    [start]: the set-up is abandoned at the refused call, the line
    "D-Bus setup error: " with the text of the error is printed, [start]
    goes on to connect the CAN side exactly as [connect] would from the
    state before, and returns; the connector ends connected when it was
    already or when the kernel accepts the set-up calls, whatever
    happened on the bus. *)
Theorem start_survives_bus_errors (s : State)
  (H : only_sdbus_errors (world s))
  (JB : joinable (m_dbusThread s) = false)
  (I : connection_invariant (conn s))
  (N : (String.length (m_interfaceName (conn s)) < IFNAMSIZ)%nat) :
  let connected :=
    m_connected (conn s) || match failing_step s with None => true | _ => false end in
  let last_line :=
    if connected then Stdout "CAN Listener service started successfully"
    else Stderr "Failed to connect to CAN interface" in
  let out := start s in
  result_of out = Done tt
  /\ m_connected (conn (state_of out)) = connected
  /\ events_of out =
       (Stdout "Starting CAN Listener service..." ::
        bus_setup_log (world s) (nbus s) bus_setup_steps ++ connect_log s ++
        [last_line])%list
  /\ (forall i msg,
        (i < 8)%nat ->
        (forall j, (j < i)%nat -> sessionbus (world s) (nbus s + j) = BusOk) ->
        sessionbus (world s) (nbus s + i) = BusThrow (SdbusError msg) ->
        exists before op,
          events_of out =
            (Stdout "Starting CAN Listener service..." :: before ++
             [Bus op (BusThrow (SdbusError msg)); Stderr ("D-Bus setup error: " ++ msg)] ++
             connect_log s ++ [last_line])%list).
Proof.
  cbv zeta.
  destruct (setupDBusInterface_returns s H) as (R & K & W & N' & _).
  pose proof (setupDBusInterface_log s) as LG.
  set (b := m_connected (conn s) || match failing_step s with None => true | _ => false end).
  assert (F1 : failing_step (state_of (setupDBusInterface s)) = failing_step s)
    by (unfold failing_step; now rewrite W, N').
  pose proof (connect_returns (state_of (setupDBusInterface s))) as R1.
  pose proof (connect_flag (state_of (setupDBusInterface s))) as C1.
  pose proof (connect_events (state_of (setupDBusInterface s))) as E1.
  assert (L1 : connect_log (state_of (setupDBusInterface s)) = connect_log s).
  { unfold connect_log, setup_log, setup_message, setup_errno.
    rewrite F1, K, W, N'. destruct (m_connected (conn s)); [reflexivity|].
    destruct (failing_step s); reflexivity. }
  rewrite F1, K in R1, C1. fold b in R1, C1. rewrite L1 in E1.
  assert (E : events_of (start s) =
              (Stdout "Starting CAN Listener service..." ::
               bus_setup_log (world s) (nbus s) bus_setup_steps ++ connect_log s ++
               [if b then Stdout "CAN Listener service started successfully"
                else Stderr "Failed to connect to CAN interface"])%list
              /\ result_of (start s) = Done tt
              /\ m_connected (conn (state_of (start s))) = b).
  { rewrite <- LG. unfold start. mrun.
    unfold result_of, state_of, events_of in *.
    destruct (setupDBusInterface s) as [[r s1] t1]. cbn [fst snd] in *. subst r.
    destruct (connect s1) as [[r2 s2] t2]. cbn [fst snd] in *. subst r2 t2.
    destruct b; mrun; rewrite ?app_nil_r, <- ?app_assoc, ?C1; repeat split; reflexivity. }
  destruct E as (E & R2 & C2).
  split; [exact R2|]. split; [exact C2|]. split; [exact E|].
  intros i msg Hi Hok Hthrow.
  destruct (bus_setup_log_error (world s) bus_setup_steps (nbus s) i msg Hi Hok Hthrow)
    as (before & op & B).
  exists before, op. rewrite E, B, <- !app_assoc. reflexivity.
Qed.

(** X15.  On a bus that accepts the eight set-up calls,
    [setupDBusInterface], on a listener without a bus thread, leaves the
    listener with a bus connection, a bus
    thread and a bus object on which exactly the methods SendCANMessage
    and GetStatus and the signals CANMessageReceived and CANMessageSent
    are registered, the registration finished; the calls are made in the
    order of the log below and the connector is not touched. *)
Theorem setupDBusInterface_registers (s : State)
  (JB : joinable (m_dbusThread s) = false)
  (B : forall i, (i < 8)%nat -> sessionbus (world s) (nbus s + i) = BusOk) :
  let out := setupDBusInterface s in
  result_of out = Done tt
  /\ m_dbusConnection (state_of out) = true
  /\ m_dbusObject (state_of out) =
       Some {| methods := ["SendCANMessage"; "GetStatus"];
               signals := ["CANMessageReceived"; "CANMessageSent"];
               finished := true |}
  /\ m_dbusThread (state_of out) = Some Running
  /\ conn (state_of out) = conn s
  /\ events_of out =
       [Bus CreateSessionBusConnection BusOk;
        Stdout "[CAN Listener] Connected to SESSION bus";
        Bus (RequestName SERVICE_NAME) BusOk;
        Bus (CreateObject OBJECT_PATH) BusOk;
        Bus (RegisterMethod INTERFACE_NAME "SendCANMessage") BusOk;
        Bus (RegisterMethod INTERFACE_NAME "GetStatus") BusOk;
        Bus (RegisterSignal INTERFACE_NAME "CANMessageReceived") BusOk;
        Bus (RegisterSignal INTERFACE_NAME "CANMessageSent") BusOk;
        Bus FinishRegistration BusOk;
        Stdout ("[CAN Listener] D-Bus service ready: " ++ SERVICE_NAME);
        ThreadStart].
Proof.
  cbv zeta.
  pose proof (B 0%nat ltac:(lia)) as B0. rewrite Nat.add_0_r in B0.
  pose proof (B 1%nat ltac:(lia)) as B1. rewrite Nat.add_comm in B1.
  pose proof (B 2%nat ltac:(lia)) as B2. rewrite Nat.add_comm in B2.
  pose proof (B 3%nat ltac:(lia)) as B3. rewrite Nat.add_comm in B3.
  pose proof (B 4%nat ltac:(lia)) as B4. rewrite Nat.add_comm in B4.
  pose proof (B 5%nat ltac:(lia)) as B5. rewrite Nat.add_comm in B5.
  pose proof (B 6%nat ltac:(lia)) as B6. rewrite Nat.add_comm in B6.
  pose proof (B 7%nat ltac:(lia)) as B7. rewrite Nat.add_comm in B7.
  cbn [Nat.add] in *.
  unfold setupDBusInterface, registerMethod, registerSignal. mrun.
  rewrite B0. mrun. rewrite B1. mrun. rewrite B2. mrun. rewrite B3. mrun.
  rewrite B4. mrun. rewrite B5. mrun. rewrite B6. mrun. rewrite B7. mrun.
  repeat split; reflexivity.
Qed.

Lemma reader_body_frame_listener (s : State) (o : DBusObject) :
  m_messageCallback (conn s) = ListenerCallback ->
  m_dbusObject s = Some o ->
  quiet (world s) ->
  (0 <? sr_ret (kernel (world s) (nsys s))) && sr_isset (kernel (world s) (nsys s)) = true ->
  sr_ret (kernel (world s) (S (nsys s))) = sizeof_can_frame ->
  let f := sr_frame (kernel (world s) (S (nsys s))) in
  result_of (reader_body s) = Done true
  /\ published (events_of (reader_body s)) = [frame_content f]
  /\ nsys (state_of (reader_body s)) = S (S (nsys s))
  /\ world (state_of (reader_body s)) = world s
  /\ conn (state_of (reader_body s)) = conn s
  /\ m_dbusObject (state_of (reader_body s)) = Some o.
Proof.
  intros CB O Q Sel Rd. cbv zeta.
  unfold reader_body, fire_message, onCANMessageReceived, frame_content. mrun.
  rewrite Sel. mrun. rewrite Rd. cbn [Z.eqb sizeof_can_frame Pos.eqb]. mrun.
  rewrite CB. mrun. rewrite O. mrun. rewrite (Q (nbus s)). mrun.
  rewrite (Q (S (nbus s))). mrun. rewrite forwardCANMessageToECU_run. mrun.
  cbn [published]. rewrite !published_app, published_forwarding_log.
  repeat split; try reflexivity. exact O.
Qed.

Lemma listener_publishes_frames (o : DBusObject) (frames : list can_frame) :
  forall (k : nat) (s : State),
    m_shouldStop (conn s) = false ->
    m_messageCallback (conn s) = ListenerCallback ->
    m_dbusObject s = Some o ->
    quiet (world s) ->
    frames_arrive (world s) (nsys s) frames ->
    exists s' t,
      readThreadFunction (List.length frames + k) s =
        (result_of (readThreadFunction k s'), state_of (readThreadFunction k s'),
         (t ++ events_of (readThreadFunction k s'))%list)
      /\ published t = map frame_content frames.
Proof.
  induction frames as [|f frames IH]; intros k s Hstop CB O Q A.
  - exists s, []. cbn [List.length Nat.add app map published].
    split; [|reflexivity].
    unfold result_of, state_of, events_of.
    now destruct (readThreadFunction k s) as [[r s2] t2].
  - cbn [frames_arrive] in A. destruct A as (Sel & Rd & Fr & A).
    destruct (reader_body_frame_listener s o CB O Q Sel Rd) as (R & E & N & W & K & O').
    rewrite Fr in E.
    destruct (IH k (state_of (reader_body s))) as (s' & t & Run & Pub).
    + now rewrite K.
    + now rewrite K.
    + exact O'.
    + now rewrite W.
    + now rewrite W, N.
    + exists s', (events_of (reader_body s) ++ t)%list. split.
      * cbn [List.length Nat.add]. rewrite readThreadFunction_step, Hstop.
        unfold result_of, state_of, events_of in *.
        destruct (reader_body s) as [[r s1] t1]. cbn [fst snd] in *. subst r.
        rewrite Run. now rewrite app_assoc.
      * rewrite published_app, Pub, E. reflexivity.
Qed.

(** X16.  The listener republishes in order: on a started listener
    with a bus that accepts every call, the CANMessageReceived signals
    emitted while the reader takes in a list of whole frames carry the
    identifiers and payloads of those frames, one signal per frame, in
    the order the frames were read, whatever their identifiers. *)
Theorem listener_publishes_in_order
  (o : DBusObject) (frames : list can_frame) (k : nat) (s : State)
  (Hstop : m_shouldStop (conn s) = false)
  (CB : m_messageCallback (conn s) = ListenerCallback)
  (O : m_dbusObject s = Some o)
  (Q : quiet (world s))
  (A : frames_arrive (world s) (nsys s) frames) :
  published (events_of (readThreadFunction (List.length frames) s)) =
    map frame_content frames
  /\ exists later,
       published (events_of (readThreadFunction (List.length frames + k) s)) =
         (map frame_content frames ++ later)%list.
Proof.
  destruct (listener_publishes_frames o frames 0 s Hstop CB O Q A) as (s0 & t0 & Run0 & P0).
  destruct (listener_publishes_frames o frames k s Hstop CB O Q A) as (s1 & t1 & Run1 & P1).
  rewrite Nat.add_0_r in Run0. rewrite Run0, Run1.
  unfold events_of. cbn [fst snd readThreadFunction pending].
  rewrite app_nil_r, published_app, P0, P1.
  split; [reflexivity|]. eexists. reflexivity.
Qed.

(** ** What the reader thread never does *)

Lemma logs_ret (P : Event -> bool) {A} (a : A) : logs_only P (ret a).
Proof. intros s. reflexivity. Qed.

Lemma logs_bind (P : Event -> bool) {A B} (m : M A) (f : A -> M B) :
  logs_only P m -> (forall a, logs_only P (f a)) -> logs_only P (bind m f).
Proof.
  intros Hm Hf s. unfold bind, events_of.
  specialize (Hm s). unfold events_of in Hm.
  destruct (m s) as [[r s1] t1]. cbn [fst snd] in *.
  destruct r as [a | e | ]; cbn [snd]; try exact Hm.
  specialize (Hf a s1). unfold events_of in Hf.
  destruct (f a s1) as [[r2 s2] t2]. cbn [snd] in *.
  rewrite forallb_app, Hm, Hf. reflexivity.
Qed.

Lemma logs_try_catch (P : Event -> bool) {A} (body : M A) (handler : Exn -> M A) :
  logs_only P body -> (forall e, logs_only P (handler e)) ->
  logs_only P (try_catch body handler).
Proof.
  intros Hm Hf s. unfold try_catch, events_of.
  specialize (Hm s). unfold events_of in Hm.
  destruct (body s) as [[r s1] t1]. cbn [fst snd] in *.
  destruct r as [a | e | ]; cbn [snd]; try exact Hm.
  specialize (Hf e s1). unfold events_of in Hf.
  destruct (handler e s1) as [[r2 s2] t2]. cbn [snd] in *.
  rewrite forallb_app, Hm, Hf. reflexivity.
Qed.

Lemma logs_silent (P : Event -> bool) {A} (m : M A) :
  (forall s, events_of (m s) = []) -> logs_only P m.
Proof. intros H s. now rewrite H. Qed.

Lemma logs_emit (P : Event -> bool) (e : Event) : P e = true -> logs_only P (emit e).
Proof. intros H s. cbn. now rewrite H. Qed.

Lemma logs_syscall (P : Event -> bool) (call : Syscall) :
  (forall r, P (Sys call r) = true) -> logs_only P (syscall call).
Proof. intros H s. cbn. now rewrite H. Qed.

Lemma logs_buscall (P : Event -> bool) (op : BusOp) :
  (forall r, P (Bus op r) = true) -> logs_only P (buscall op).
Proof. intros H s. cbn. now rewrite H. Qed.

Ltac logs :=
  repeat match goal with
    | |- logs_only _ (bind _ _) => apply logs_bind; [| intros ?]
    | |- logs_only _ (try_catch _ _) => apply logs_try_catch; [| intros ?]
    | |- logs_only _ (if ?b then _ else _) => destruct b
    | |- logs_only _ (match ?x with _ => _ end) => destruct x
    | |- logs_only _ (emit _) => apply logs_emit; reflexivity
    | |- logs_only _ (syscall _) => apply logs_syscall; intros ?; reflexivity
    | |- logs_only _ (buscall _) => apply logs_buscall; intros ?; reflexivity
    | |- logs_only _ _ => solve [apply logs_silent; intros ?; reflexivity | assumption | auto]
    end.

Lemma logs_reader_body : logs_only reader_event reader_body.
Proof.
  assert (FE : forall msg, logs_only reader_event (fire_error msg)).
  { intros msg s. rewrite fire_error_run. unfold events_of. cbn [snd].
    destruct (m_errorCallback (conn s)); reflexivity. }
  assert (FW : forall canId payload,
             logs_only reader_event (forwardCANMessageToECU canId payload)).
  { intros canId payload s. rewrite forwardCANMessageToECU_run.
    unfold events_of, forwarding_log. cbn [snd].
    destruct (category implemented_ranges canId); reflexivity. }
  assert (ON : forall canId payload,
             logs_only reader_event (onCANMessageReceived canId payload)).
  { intros canId payload.
    unfold onCANMessageReceived, catch_sdbus, stdout, stderr. logs. }
  assert (FM : forall canId payload, logs_only reader_event (fire_message canId payload)).
  { intros canId payload. unfold fire_message. logs. }
  unfold reader_body, stdout. logs.
Qed.

Lemma logs_readThreadFunction (fuel : nat) :
  logs_only reader_event (readThreadFunction fuel).
Proof.
  pose proof logs_reader_body.
  induction fuel as [|fuel IH]; cbn [readThreadFunction]; logs.
Qed.

(** X17.  What the reader thread never does, however long it runs and
    whatever the kernel and the bus answer: its only system calls are
    [select] and [read] (it never writes to the descriptor, never closes
    it, never opens or binds one), it never invokes the status slot, it
    starts and joins no thread, and it leaves the connector object as it
    found it. *)
Theorem reader_only_selects_and_reads (fuel : nat) (s : State) :
  let out := readThreadFunction fuel s in
  (forall call r, In (Sys call r) (events_of out) ->
     exists fd, call = Select fd \/ call = Read fd)
  /\ write_calls (events_of out) = []
  /\ (forall b, ~ In (StatusCb b) (events_of out))
  /\ ~ In ThreadStart (events_of out) /\ ~ In ThreadJoin (events_of out)
  /\ conn (state_of out) = conn s.
Proof.
  cbv zeta.
  pose proof (logs_readThreadFunction fuel s) as L.
  rewrite forallb_forall in L.
  split; [|split; [|split; [|split; [|split]]]].
  - intros call r I. specialize (L _ I).
    destruct call; try discriminate L; eexists; [left | right]; reflexivity.
  - unfold write_calls.
    induction (events_of (readThreadFunction fuel s)) as [|e t IH]; [reflexivity|].
    cbn [filter].
    assert (Le : reader_event e = true) by (apply L; now left).
    destruct e as [[ | | | | | | ] ? | | | | | | | | ]; cbn [is_write];
      try discriminate Le; apply IH; intros x Hx; apply L; now right.
  - intros b I. specialize (L _ I). discriminate L.
  - intros I. specialize (L _ I). discriminate L.
  - intros I. specialize (L _ I). discriminate L.
  - apply keeps_readThreadFunction.
Qed.

(** * Further properties of the singleton accessor *)

(** X18.  Called by one caller after the other, from any state of the
    static pointer, [instance] returns one and the same non-null address
    every time: the address already stored, or else that of the listener
    the first call constructs.  At most that one listener is constructed
    and none is deleted. *)
Theorem instance_calls_return_one_pointer (n : nat) (m : Singleton.Memory) :
  let p := match Singleton.instance_ptr m with
           | Some q => q
           | None => Singleton.next_address m
           end in
  let m' := fst (Singleton.calls (S n) m) in
  snd (Singleton.calls (S n) m) = repeat (Some p) (S n)
  /\ Singleton.instance_ptr m' = Some p
  /\ Singleton.constructed m' =
       (Singleton.constructed m ++
        match Singleton.instance_ptr m with None => [p] | Some _ => [] end)%list
  /\ Singleton.deleted m' = Singleton.deleted m.
Proof.
  cbv zeta. cbn [Singleton.calls].
  destruct (Singleton.instance_ptr m) as [q|] eqn:P.
  - rewrite (instance_initialised m q P), (calls_initialised n m q P).
    cbn [fst snd repeat]. rewrite app_nil_r. repeat split; try reflexivity. exact P.
  - unfold Singleton.instance. rewrite P.
    cbn [Singleton.construct Singleton.reset Singleton.instance_ptr].
    rewrite (calls_initialised n _ (Singleton.next_address m)) by reflexivity.
    unfold Singleton.reset.
    cbn [fst snd repeat Singleton.instance_ptr Singleton.constructed Singleton.deleted].
    rewrite P. repeat split; reflexivity.
Qed.

Lemma nth_error_set_nth_same (i : nat) (pc pc0 : Singleton.PC) (ts : list Singleton.PC) :
  nth_error ts i = Some pc0 -> nth_error (Singleton.set_nth i pc ts) i = Some pc.
Proof.
  revert i. induction ts as [|t ts IH]; intros [|i] H; cbn in *; try discriminate.
  - reflexivity.
  - now apply IH.
Qed.

Lemma nth_error_set_nth_other (i j : nat) (pc : Singleton.PC) (ts : list Singleton.PC) :
  i <> j -> nth_error (Singleton.set_nth i pc ts) j = nth_error ts j.
Proof.
  revert i j. induction ts as [|t ts IH]; intros [|i] [|j] H; cbn; try reflexivity.
  - now elim H.
  - apply IH. intros E. apply H. now rewrite E.
Qed.

Lemma Forall_set_nth (P : Singleton.PC -> Prop) (i : nat) (pc : Singleton.PC)
  (ts : list Singleton.PC) :
  Forall P ts -> P pc -> Forall P (Singleton.set_nth i pc ts).
Proof.
  intros F H. revert i. induction F as [|t ts Ht F IH]; intros [|i]; cbn;
    constructor; auto.
Qed.

Lemma step_settled (m : Singleton.Memory) (p : nat) (pc : Singleton.PC) :
  Singleton.instance_ptr m = Some p -> settled p pc ->
  fst (Singleton.step m pc) = m
  /\ settled p (snd (Singleton.step m pc))
  /\ steps_left (snd (Singleton.step m pc)) = Nat.pred (steps_left pc).
Proof.
  intros P [H | [H | H]]; subst pc; cbn [Singleton.step]; rewrite ?P; cbn [fst snd];
    unfold settled; repeat split; auto.
Qed.

Lemma run_settled (schedule : list nat) :
  forall (m : Singleton.Memory) (p : nat) (ts : list Singleton.PC),
    Singleton.instance_ptr m = Some p -> Forall (settled p) ts ->
    fst (Singleton.run schedule m ts) = m
    /\ Forall (settled p) (snd (Singleton.run schedule m ts))
    /\ (forall i pc, nth_error ts i = Some pc ->
        (steps_left pc <= count_occ Nat.eq_dec schedule i)%nat ->
        nth_error (snd (Singleton.run schedule m ts)) i =
          Some (Singleton.Returned (Some p))).
Proof.
  induction schedule as [|j rest IH]; intros m p ts P F.
  - cbn [Singleton.run fst snd count_occ]. split; [reflexivity|]. split; [exact F|].
    intros i pc Hi L.
    rewrite Forall_forall in F. specialize (F pc (nth_error_In _ _ Hi)).
    destruct F as [H | [H | H]]; subst pc; cbn in L; try lia. exact Hi.
  - cbn [Singleton.run].
    destruct (nth_error ts j) as [pcj|] eqn:Hj.
    + assert (Sj : settled p pcj).
      { rewrite Forall_forall in F. apply F. eapply nth_error_In, Hj. }
      destruct (step_settled m p pcj P Sj) as (M1 & S1 & L1).
      destruct (Singleton.step m pcj) as [m1 pc1]. cbn [fst snd] in *. subst m1.
      destruct (IH m p (Singleton.set_nth j pc1 ts) P (Forall_set_nth _ _ _ _ F S1))
        as (Hm & Hf & Hr).
      split; [exact Hm|]. split; [exact Hf|].
      intros i pc Hi L. cbn [count_occ] in L.
      destruct (Nat.eq_dec j i) as [E | E].
      * subst i. rewrite Hj in Hi. inversion Hi; subst pc.
        apply (Hr j pc1); [eapply nth_error_set_nth_same, Hj | lia].
      * apply (Hr i pc); [now rewrite nth_error_set_nth_other | exact L].
    + destruct (IH m p ts P F) as (Hm & Hf & Hr).
      split; [exact Hm|]. split; [exact Hf|].
      intros i pc Hi L. cbn [count_occ] in L.
      destruct (Nat.eq_dec j i) as [E | E].
      * subst i. rewrite Hj in Hi. discriminate Hi.
      * now apply (Hr i pc).
Qed.

(** X19.  Once the static pointer is set, concurrent callers are safe,
    however they are interleaved: callers that enter [instance] after the
    first call has stored the pointer construct nothing and delete
    nothing (memory is unchanged), every caller that returns returns the
    stored address, and a caller returns as soon as it has been scheduled
    for its two memory operations. *)
Theorem instance_safe_once_initialised
  (schedule : list nat) (m : Singleton.Memory) (p : nat) (callers : nat)
  (P : Singleton.instance_ptr m = Some p) :
  let out := Singleton.run schedule m (repeat Singleton.AtTest callers) in
  fst out = m
  /\ (forall i r, nth_error (snd out) i = Some (Singleton.Returned r) -> r = Some p)
  /\ (forall i, (i < callers)%nat -> (2 <= count_occ Nat.eq_dec schedule i)%nat ->
      nth_error (snd out) i = Some (Singleton.Returned (Some p))).
Proof.
  cbv zeta.
  assert (F : Forall (settled p) (repeat Singleton.AtTest callers)).
  { apply Forall_forall. intros pc I. apply repeat_spec in I. now left. }
  destruct (run_settled schedule m p _ P F) as (Hm & Hf & Hr).
  split; [exact Hm|]. split.
  - intros i r Hi. rewrite Forall_forall in Hf.
    specialize (Hf _ (nth_error_In _ _ Hi)).
    destruct Hf as [H | [H | H]]; try discriminate H. now inversion H.
  - intros i Hi L. apply (Hr i Singleton.AtTest); [|exact L].
    now apply nth_error_repeat.
Qed.

(** * Further properties: what the callbacks are told *)

Lemma error_calls_app (t u : list Event) :
  error_calls (t ++ u) = (error_calls t ++ error_calls u)%list.
Proof. apply filter_app. Qed.

Lemma error_calls_error_events (cb : Callback) (msg : string) :
  cb <> NoCallback -> error_calls (error_events cb msg) = [ErrorCb msg].
Proof. destruct cb; intros H; [now elim H | reflexivity | reflexivity]. Qed.

Lemma error_calls_status_events (cb : Callback) (b : bool) :
  error_calls (status_events cb b) = [].
Proof. destruct cb; reflexivity. Qed.

Lemma error_calls_setup_log (s : State) : error_calls (setup_log s) = [].
Proof. unfold setup_log. destruct (failing_step s) as [[ | | ]|]; reflexivity. Qed.

(** X20.  A failure is always reported, and only a failure: with an
    error slot installed, on a connector whose flag, descriptor and
    thread agree and whose name fits [ifr_name], [sendMessage] and
    [connect] invoke it exactly once when they answer [false] and not at
    all when they answer [true]; they have no other outcome. *)
Theorem failures_are_reported (s : State) (canId : Z) (payload : list Byte.byte)
  (CB : m_errorCallback (conn s) <> NoCallback)
  (I : connection_invariant (conn s))
  (N : (String.length (m_interfaceName (conn s)) < IFNAMSIZ)%nat) :
  let sent := sendMessage canId payload s in
  let connected := connect s in
  ((result_of sent = Done true /\ error_calls (events_of sent) = [])
   \/ (result_of sent = Done false
       /\ exists msg, error_calls (events_of sent) = [ErrorCb msg]))
  /\ ((result_of connected = Done true /\ error_calls (events_of connected) = [])
      \/ (result_of connected = Done false
          /\ exists msg, error_calls (events_of connected) = [ErrorCb msg])).
Proof.
  cbv zeta. split.
  - destruct (negb (m_connected (conn s)) || (m_socket (conn s) <? 0)) eqn:G.
    + rewrite (sendMessage_not_connected s canId payload G). right.
      split; [reflexivity|]. eexists. now apply error_calls_error_events.
    + destruct (CAN_MAX_DLEN <? List.length payload)%nat eqn:L.
      * rewrite (sendMessage_too_large s canId payload G L). right.
        split; [reflexivity|]. eexists. now apply error_calls_error_events.
      * rewrite (sendMessage_written s canId payload G L).
        unfold result_of, events_of. cbn [fst snd error_calls filter is_error].
        destruct (sr_ret (kernel (world s) (nsys s)) =? sizeof_can_frame).
        -- left. split; reflexivity.
        -- right. split; [reflexivity|]. eexists. now apply error_calls_error_events.
  - rewrite connect_events, connect_returns. unfold connect_log.
    destruct (m_connected (conn s)) eqn:C; cbn [orb].
    + left. split; reflexivity.
    + destruct (failing_step s) as [step|] eqn:F.
      * right. split; [reflexivity|]. eexists.
        rewrite error_calls_app, error_calls_setup_log.
        now apply error_calls_error_events.
      * left. split; [reflexivity|].
        rewrite error_calls_app, error_calls_setup_log. cbn [app error_calls filter is_error].
        fold (error_calls (status_events (m_statusCallback (conn s)) true
                           ++ [Stdout ("Connected to CAN interface: "
                                       ++ m_interfaceName (conn s))])).
        now rewrite error_calls_app, error_calls_status_events.
Qed.

(** ** The status slot is told the connection flag *)

Lemma last_status_app (init : bool) (t u : list Event) :
  last_status init (t ++ u) = last_status (last_status init t) u.
Proof. apply fold_left_app. Qed.

Lemma last_status_quiet (init : bool) (t : list Event) :
  forallb not_status t = true -> last_status init t = init.
Proof.
  revert init. induction t as [|e t IH]; intros init H; [reflexivity|].
  cbn [forallb] in H. apply andb_prop in H. destruct H as (He & Ht).
  unfold last_status. cbn [fold_left]. fold (last_status
    (match e with StatusCb b => b | _ => init end) t).
  rewrite (IH _ Ht). destruct e; try reflexivity. discriminate He.
Qed.

Lemma reader_event_not_status (t : list Event) :
  forallb reader_event t = true -> forallb not_status t = true.
Proof.
  rewrite !forallb_forall. intros H e I. specialize (H e I).
  destruct e; try reflexivity. discriminate H.
Qed.

Lemma slots_keeps {A} (m : M A) : keeps_conn m -> keeps_status_slot m.
Proof. intros K s. now rewrite (K s). Qed.

Lemma slots_bind {A B} (m : M A) (f : A -> M B) :
  keeps_status_slot m -> (forall a, keeps_status_slot (f a)) -> keeps_status_slot (bind m f).
Proof.
  intros Hm Hf s. unfold bind, state_of.
  specialize (Hm s). unfold state_of in Hm.
  destruct (m s) as [[r s1] t1]. cbn [fst snd] in *.
  destruct r as [a | e | ]; cbn [fst snd]; try exact Hm.
  specialize (Hf a s1). unfold state_of in Hf.
  destruct (f a s1) as [[r2 s2] t2]. cbn [fst snd] in *. congruence.
Qed.

Ltac slots :=
  repeat match goal with
    | |- keeps_status_slot (bind _ _) => apply slots_bind; [| intros ?]
    | |- keeps_status_slot (if ?b then _ else _) => destruct b
    | |- keeps_status_slot (match ?x with _ => _ end) => destruct x
    | |- keeps_status_slot _ =>
        solve [ auto | intros ?; reflexivity | apply slots_keeps; auto with frame ]
    end.

Lemma slots_connect : keeps_status_slot connect.
Proof.
  pose proof (fun msg => slots_keeps _ (keeps_fire_error msg)) as FE.
  pose proof (fun b => slots_keeps _ (keeps_fire_status b)) as FS.
  unfold connect, setupSocket, stdout. slots.
Qed.

Lemma slots_disconnect (fuel : nat) : keeps_status_slot (disconnect fuel).
Proof.
  pose proof (fun b => slots_keeps _ (keeps_fire_status b)) as FS.
  pose proof (slots_keeps _ (keeps_readThreadFunction fuel)) as RT.
  unfold disconnect, join_readThread, cleanupSocket, when, stdout. slots.
Qed.

Lemma slots_setInterfaceName (fuel : nat) (name : string) :
  keeps_status_slot (setInterfaceName fuel name).
Proof.
  pose proof slots_connect. pose proof (slots_disconnect fuel).
  unfold setInterfaceName, when. cbv zeta. slots.
Qed.

Lemma slots_start : keeps_status_slot start.
Proof.
  pose proof slots_connect. pose proof (slots_keeps _ keeps_setupDBusInterface).
  unfold start, stdout, stderr. slots.
Qed.

Lemma slots_stop (fuel : nat) : keeps_status_slot (stop fuel).
Proof.
  pose proof (slots_disconnect fuel).
  assert (K1 : forall v, keeps_conn (modify (set_dbusConnection v)))
    by (intros v s; reflexivity).
  assert (K2 : forall v, keeps_conn (modify (set_dbusObject v)))
    by (intros v s; reflexivity).
  assert (K3 : forall v, keeps_conn (modify (set_dbusThread v)))
    by (intros v s; reflexivity).
  unfold stop, stdout.
  apply slots_bind; [apply slots_keeps; auto with frame | intros _].
  apply slots_bind; [assumption | intros _].
  apply slots_keeps. unfold when, leaveEventLoop, join_dbusThread, stderr. frame.
Qed.

Lemma slots_run_readThread (fuel : nat) : keeps_status_slot (run_readThread fuel).
Proof.
  pose proof (slots_keeps _ (keeps_readThreadFunction fuel)) as RT.
  unfold run_readThread. slots.
Qed.

Lemma tracks_quiet {A} (m : M A) :
  keeps_conn m -> logs_only not_status m -> tracks m.
Proof.
  intros K L s _. rewrite (K s). apply last_status_quiet, L.
Qed.

Lemma tracks_bind {A B} (m : M A) (f : A -> M B) :
  keeps_status_slot m -> tracks m -> (forall a, tracks (f a)) -> tracks (bind m f).
Proof.
  intros Km Hm Hf s CB. unfold bind, state_of, events_of.
  specialize (Hm s CB). specialize (Km s). unfold state_of, events_of in Hm, Km.
  destruct (m s) as [[r s1] t1]. cbn [fst snd] in *.
  destruct r as [a | e | ]; cbn [fst snd]; try exact Hm.
  assert (CB1 : m_statusCallback (conn s1) <> NoCallback) by now rewrite Km.
  specialize (Hf a s1 CB1). unfold state_of, events_of in Hf.
  destruct (f a s1) as [[r2 s2] t2]. cbn [fst snd] in *.
  now rewrite last_status_app, Hm.
Qed.

Lemma tracks_assign (f : CANConnector -> CANConnector) :
  (forall c, m_connected (f c) = m_connected c) -> tracks (assign f).
Proof.
  intros H s _. unfold assign, modify, events_of, state_of. cbn [fst snd last_status fold_left].
  unfold with_conn. cbn [conn]. now rewrite H.
Qed.

Lemma last_status_setup_log (init : bool) (s : State) :
  last_status init (setup_log s) = init.
Proof. unfold setup_log. destruct (failing_step s) as [[ | | ]|]; reflexivity. Qed.

Lemma last_status_error_events (init : bool) (cb : Callback) (msg : string) :
  last_status init (error_events cb msg) = init.
Proof. destruct cb; reflexivity. Qed.

Lemma last_status_status_events (init b : bool) (cb : Callback) :
  cb <> NoCallback -> last_status init (status_events cb b) = b.
Proof. destruct cb; intros H; [now elim H | reflexivity | reflexivity]. Qed.

Lemma tracks_connect : tracks connect.
Proof.
  intros s CB. rewrite connect_events, connect_flag. unfold connect_log.
  destruct (m_connected (conn s)) eqn:C; [reflexivity|]. cbn [orb].
  destruct (failing_step s) as [step|] eqn:F.
  - now rewrite last_status_app, last_status_setup_log, last_status_error_events.
  - rewrite last_status_app, last_status_setup_log.
    change (ThreadStart :: ?l) with ([ThreadStart] ++ l)%list.
    rewrite !last_status_app. cbn [last_status fold_left].
    fold (last_status false (status_events (m_statusCallback (conn s)) true)).
    now rewrite last_status_status_events.
Qed.

Lemma tracks_disconnect (fuel : nat) : tracks (disconnect fuel).
Proof.
  intros s CB. destruct (m_connected (conn s)) eqn:C.
  - destruct fuel as [|fuel].
    + unfold disconnect, join_readThread, cleanupSocket. mrun. rewrite C.
      destruct (m_statusCallback (conn s)) eqn:S; [now elim CB | |];
        destruct (m_readThread (conn s)) as [[ | | ]|] eqn:T;
        destruct (0 <=? m_socket (conn s)) eqn:Sk;
        cbn [joinable readThreadFunction];
        repeat (mrun; rewrite ?T, ?Sk, ?C, ?fire_status_run, ?S);
        cbn [status_events app]; try reflexivity; exact C.
    + destruct (disconnect_connected fuel s C) as (_ & E & MC & _).
      rewrite E, MC. unfold disconnect_log.
      rewrite !last_status_app. cbn [last_status fold_left].
      fold (last_status
              (last_status
                 (last_status true
                    (if joinable (m_readThread (conn s)) then [ThreadJoin] else []))
                 (if 0 <=? m_socket (conn s)
                  then [Sys (Close (m_socket (conn s)))
                          (sr_ret (kernel (world s) (nsys s)))]
                  else []))
              (status_events (m_statusCallback (conn s)) false)).
      now rewrite last_status_status_events.
  - rewrite (disconnect_not_connected fuel s C).
    unfold events_of, state_of. cbn [fst snd last_status fold_left]. now rewrite C.
Qed.

Lemma quiet_fire_error (msg : string) : logs_only not_status (fire_error msg).
Proof.
  intros s. rewrite fire_error_run. unfold events_of. cbn [snd].
  destruct (m_errorCallback (conn s)); reflexivity.
Qed.

Lemma tracks_sendMessage (canId : Z) (payload : list Byte.byte) :
  tracks (sendMessage canId payload).
Proof.
  apply tracks_quiet; [apply keeps_sendMessage|].
  pose proof quiet_fire_error.
  unfold sendMessage, stdout. logs.
Qed.

Lemma tracks_ret {A} (a : A) : tracks (ret a).
Proof. intros s _. reflexivity. Qed.

Lemma tracks_stdout (line : string) : tracks (stdout line).
Proof. intros s _. reflexivity. Qed.

Lemma tracks_stderr (line : string) : tracks (stderr line).
Proof. intros s _. reflexivity. Qed.

Lemma tracks_this : tracks this.
Proof. intros s _. reflexivity. Qed.

Lemma tracks_setInterfaceName (fuel : nat) (name : string) :
  tracks (setInterfaceName fuel name).
Proof.
  pose proof slots_connect as SC. pose proof (slots_disconnect fuel) as SD.
  pose proof tracks_connect as TC. pose proof (tracks_disconnect fuel) as TD.
  assert (TN : tracks (assign (set_interfaceName name)))
    by (apply tracks_assign; intros c; reflexivity).
  assert (SN : keeps_status_slot (assign (set_interfaceName name)))
    by (intros s; reflexivity).
  unfold setInterfaceName, when.
  apply tracks_bind; [intros s; reflexivity | apply tracks_this | intros c].
  destruct (negb (m_interfaceName c =? name)%string); [|apply tracks_ret].
  cbv zeta. destruct (m_connected c).
  - apply tracks_bind; [exact SD | exact TD | intros _].
    apply tracks_bind; [exact SN | exact TN | intros _].
    apply tracks_bind; [exact SC | exact TC | intros _]. apply tracks_ret.
  - apply tracks_bind; [intros s; reflexivity | apply tracks_ret | intros _].
    apply tracks_bind; [exact SN | exact TN | intros _]. apply tracks_ret.
Qed.

Lemma quiet_setupDBusInterface : logs_only not_status setupDBusInterface.
Proof.
  unfold setupDBusInterface, catch_sdbus, registerMethod, registerSignal, stdout, stderr.
  logs.
Qed.

Lemma tracks_start : tracks start.
Proof.
  unfold start.
  apply tracks_bind; [intros s; reflexivity | apply tracks_stdout | intros _].
  apply tracks_bind;
    [ apply slots_keeps, keeps_setupDBusInterface
    | apply tracks_quiet; [apply keeps_setupDBusInterface | apply quiet_setupDBusInterface]
    | intros _ ].
  apply tracks_bind; [apply slots_connect | apply tracks_connect | intros ok].
  destruct (negb ok); [apply tracks_stderr | apply tracks_stdout].
Qed.

Lemma tracks_stop (fuel : nat) : tracks (stop fuel).
Proof.
  assert (K1 : forall v, keeps_conn (modify (set_dbusConnection v)))
    by (intros v s; reflexivity).
  assert (K2 : forall v, keeps_conn (modify (set_dbusObject v)))
    by (intros v s; reflexivity).
  assert (K3 : forall v, keeps_conn (modify (set_dbusThread v)))
    by (intros v s; reflexivity).
  unfold stop.
  apply tracks_bind; [intros s; reflexivity | apply tracks_stdout | intros _].
  apply tracks_bind; [apply slots_disconnect | apply tracks_disconnect | intros _].
  apply tracks_quiet.
  - unfold when, leaveEventLoop, join_dbusThread, stdout, stderr. frame.
  - unfold when, leaveEventLoop, join_dbusThread, stdout, stderr. logs.
Qed.

Lemma tracks_run_readThread (fuel : nat) : tracks (run_readThread fuel).
Proof.
  intros s _. unfold run_readThread. mrun.
  destruct (m_readThread (conn s)) as [[ | | ]|]; try reflexivity.
  pose proof (keeps_readThreadFunction fuel s) as K.
  pose proof (reader_event_not_status _ (logs_readThreadFunction fuel s)) as L.
  unfold state_of, events_of in *.
  destruct (readThreadFunction fuel s) as [[r s1] t1]. cbn [fst snd] in *.
  destruct r; mrun; rewrite ?app_nil_r, K; now apply last_status_quiet.
Qed.

Lemma perform_tracks (c : Call) (s : State) :
  leaves_status_slot c = true ->
  m_statusCallback (conn s) <> NoCallback ->
  m_statusCallback (conn (perform c s)) = m_statusCallback (conn s)
  /\ last_status (m_connected (conn s)) (perform_log c s) = m_connected (conn (perform c s)).
Proof.
  intros L CB. destruct c; cbn [perform perform_log]; try discriminate L.
  - split; [apply slots_connect | now apply tracks_connect].
  - split; [apply slots_disconnect | now apply tracks_disconnect].
  - split; [apply slots_keeps, keeps_sendMessage | now apply tracks_sendMessage].
  - split; [apply slots_setInterfaceName | now apply tracks_setInterfaceName].
  - split; reflexivity.
  - split; reflexivity.
  - split; [apply slots_start | now apply tracks_start].
  - split; [apply slots_stop | now apply tracks_stop].
  - split; reflexivity.
  - split; [apply slots_run_readThread | now apply tracks_run_readThread].
Qed.

Lemma execute_tracks (calls : list Call) :
  forall s,
    forallb leaves_status_slot calls = true ->
    m_statusCallback (conn s) <> NoCallback ->
    last_status (m_connected (conn s)) (snd (execute calls s)) =
      m_connected (conn (fst (execute calls s))).
Proof.
  induction calls as [|c rest IH]; intros s L CB; [reflexivity|].
  cbn [forallb] in L. apply andb_prop in L. destruct L as (Lc & Lr).
  destruct (perform_tracks c s Lc CB) as (S1 & T1).
  cbn [execute]. specialize (IH (perform c s) Lr).
  destruct (execute rest (perform c s)) as [s' t]. cbn [fst snd] in *.
  rewrite last_status_app, T1. apply IH. now rewrite S1.
Qed.

(** X21.  The status slot is always told the truth about the flag.
    Take a connector constructed with a status slot, or a listener, and
    any sequence of calls (connect, disconnect, send, rename, start,
    stop, reader runs; failing ones and teardowns left waiting included)
    that does not replace the status slot: the value the slot was given
    last is the connection flag at the end, and a slot never invoked
    belongs to a connector that is not connected. *)
Theorem status_reports_track_flag (calls : list Call) (w : World) (name : string)
  (L : forallb leaves_status_slot calls = true) :
  last_status false (snd (execute calls (client_state w name))) =
    m_connected (conn (fst (execute calls (client_state w name))))
  /\ last_status false (snd (execute calls (CANListener_new w))) =
       m_connected (conn (fst (execute calls (CANListener_new w)))).
Proof.
  split.
  - apply (execute_tracks calls (client_state w name) L). discriminate.
  - apply (execute_tracks calls (CANListener_new w) L). discriminate.
Qed.

(** * Further properties: stop and the bus thread *)



(** ** Instances of the further properties *)

Lemma connect_establishes_witness :
  result_of (connect (client_state world_up "vcan0")) = Done true.
Proof.
  apply (connect_establishes (client_state world_up "vcan0")).
  - reflexivity.
  - reflexivity.
  - vm_compute. lia.
  - reflexivity.
Defined.

Lemma disconnect_tears_down_witness :
  result_of (disconnect 1 (state_of (connect (client_state world_up "vcan0")))) = Done tt.
Proof.
  apply (disconnect_tears_down 0 (state_of (connect (client_state world_up "vcan0")))).
  reflexivity.
Defined.

Lemma reconnect_after_disconnect_witness :
  m_socket (conn (state_of ((disconnect 1 ;; connect)
                              (state_of (connect (client_state world_up_twice "vcan0"))))))
  = 5.
Proof.
  apply (reconnect_after_disconnect 0
           (state_of (connect (client_state world_up_twice "vcan0")))).
  - reflexivity.
  - reflexivity.
Defined.

Lemma setInterfaceName_new_name_witness :
  setInterfaceName 0 "vcan1" (client_state world_up "vcan0") =
    (Done tt, with_conn (set_interfaceName "vcan1") (client_state world_up "vcan0"), [])
  /\ m_interfaceName
       (conn (state_of (setInterfaceName 1 "vcan1"
                          (state_of (connect (client_state world_up_twice "vcan0"))))))
     = "vcan1".
Proof.
  split.
  - apply (proj1 (setInterfaceName_new_name 0 (client_state world_up "vcan0") "vcan1"
                    ltac:(discriminate))).
    reflexivity.
  - apply (proj2 (setInterfaceName_new_name 0
                    (state_of (connect (client_state world_up_twice "vcan0"))) "vcan1"
                    ltac:(discriminate))).
    + reflexivity.
    + vm_compute. lia.
Defined.

Lemma interfaceName_after_setInterfaceName_witness :
  result_of (interfaceName
               (state_of (setInterfaceName 1 "vcan1"
                            (state_of (connect (client_state world_up_twice "vcan0"))))))
  = Done "vcan1".
Proof.
  apply (interfaceName_after_setInterfaceName 0
           (state_of (connect (client_state world_up_twice "vcan0"))) "vcan1").
  vm_compute. lia.
Defined.

Lemma reachable_connection_invariant_witness :
  connection_invariant (conn (perform CallConnect (client_state world_up "vcan0"))).
Proof.
  apply (reachable_connection_invariant (perform CallConnect (client_state world_up "vcan0"))).
  apply reach_call, reach_client.
Defined.

Lemma sendMessage_short_write_witness :
  result_of (sendMessage 0x123 bytes8
               (state_of (connect (client_state world_short_write "vcan0")))) = Done false.
Proof.
  apply (sendMessage_short_write
           (state_of (connect (client_state world_short_write "vcan0"))) 0x123 bytes8).
  - reflexivity.
  - vm_compute. discriminate.
  - vm_compute. lia.
  - vm_compute. discriminate.
  - vm_compute. discriminate.
Defined.

Lemma reader_uneventful_pass_continues_witness :
  conn (state_of (reader_body (state_of (connect (client_state world_up "vcan0"))))) =
    conn (state_of (connect (client_state world_up "vcan0"))).
Proof.
  apply (reader_uneventful_pass_continues 0
           (state_of (connect (client_state world_up "vcan0")))).
  - reflexivity.
  - reflexivity.
Defined.

Lemma reader_delivers_frame_witness :
  events_of (reader_body (state_of (connect (client_state world_frame_arrives "vcan0")))) =
    [Sys (Select 3) 1; Sys (Read 3) 16;
     MessageCb 0x123 [Byte.x01; Byte.x02; Byte.x03; Byte.x04];
     Stdout "Received CAN message - ID: 0x123 Data: 01 02 03 04 "].
Proof.
  apply (reader_delivers_frame 0
           (state_of (connect (client_state world_frame_arrives "vcan0")))).
  - reflexivity.
  - reflexivity.
  - reflexivity.
  - reflexivity.
Defined.

Lemma reader_delivers_in_order_witness :
  message_calls
    (events_of (readThreadFunction 2
                  (state_of (connect (client_state world_two_frames "vcan0"))))) =
    [MessageCb 0x123 [Byte.x01; Byte.x02; Byte.x03; Byte.x04];
     MessageCb 0x456 [Byte.xaa; Byte.xbb]].
Proof.
  apply (reader_delivers_in_order [frame_123; frame_456] 0
           (state_of (connect (client_state world_two_frames "vcan0")))).
  - reflexivity.
  - reflexivity.
  - cbn. repeat split; reflexivity.
Defined.

Lemma send_receive_round_trip_witness :
  message_calls
    (events_of (reader_body (state_of (connect (client_state world_echo "vcan0"))))) =
    [MessageCb 0x123 bytes8].
Proof.
  apply (send_receive_round_trip
           (state_of (connect (client_state world_sends "vcan0"))) 0x123 bytes8 []
           (state_of (connect (client_state world_echo "vcan0")))).
  - reflexivity.
  - vm_compute. discriminate.
  - vm_compute. lia.
  - reflexivity.
  - reflexivity.
  - reflexivity.
  - reflexivity.
  - reflexivity.
Defined.

Lemma onCANMessageReceived_bus_errors_witness :
  events_of (onCANMessageReceived 0x123 [Byte.x01]
               (state_of (start (CANListener_new world_bus_fails)))) =
    [Bus (CreateSignal "org.example.DMS.CAN" "CANMessageReceived")
       (BusThrow (SdbusError "Connection is closed"));
     Stderr "Error emitting CAN message signal: Connection is closed";
     Stdout "Forwarding engine message to ECU - ID: 0x123";
     Stdout "CAN message received - ID: 0x123 Data: 01 "].
Proof.
  apply (proj1 (proj2 (onCANMessageReceived_bus_errors
                         (state_of (start (CANListener_new world_bus_fails)))
                         0x123 [Byte.x01])) "Connection is closed").
  - vm_compute. discriminate.
  - reflexivity.
Defined.

Lemma start_survives_bus_errors_witness :
  result_of (start (CANListener_new world_no_bus)) = Done tt.
Proof.
  apply (start_survives_bus_errors (CANListener_new world_no_bus)).
  - intros n msg E. discriminate E.
  - reflexivity.
  - cbn. split; [lia | reflexivity].
  - vm_compute. lia.
Defined.

Lemma setupDBusInterface_registers_witness :
  m_dbusObject (state_of (setupDBusInterface (CANListener_new world_up))) =
    Some registered_object.
Proof.
  apply (setupDBusInterface_registers (CANListener_new world_up)).
  - reflexivity.
  - intros i _. reflexivity.
Defined.

Lemma listener_publishes_in_order_witness :
  published
    (events_of (readThreadFunction 2 (state_of (start (CANListener_new world_two_frames))))) =
    [(0x123, [Byte.x01; Byte.x02; Byte.x03; Byte.x04]); (0x456, [Byte.xaa; Byte.xbb])].
Proof.
  apply (listener_publishes_in_order registered_object [frame_123; frame_456] 0
           (state_of (start (CANListener_new world_two_frames)))).
  - reflexivity.
  - reflexivity.
  - reflexivity.
  - intros n. reflexivity.
  - cbn. repeat split; reflexivity.
Defined.

Lemma instance_safe_once_initialised_witness :
  fst (Singleton.run [0; 1; 1; 0]%nat (fst (Singleton.instance Singleton.boot))
         (repeat Singleton.AtTest 2)) =
    fst (Singleton.instance Singleton.boot).
Proof.
  apply (instance_safe_once_initialised [0; 1; 1; 0]%nat
           (fst (Singleton.instance Singleton.boot)) 1 2).
  reflexivity.
Defined.

Lemma failures_are_reported_witness :
  (result_of (connect (client_state world_no_device "nocan0")) = Done true
   /\ error_calls (events_of (connect (client_state world_no_device "nocan0"))) = [])
  \/ (result_of (connect (client_state world_no_device "nocan0")) = Done false
      /\ exists msg,
           error_calls (events_of (connect (client_state world_no_device "nocan0")))
           = [ErrorCb msg]).
Proof.
  apply (failures_are_reported (client_state world_no_device "nocan0") 0 []).
  - discriminate.
  - cbn. split; [lia | reflexivity].
  - vm_compute. lia.
Defined.

Lemma status_reports_track_flag_witness :
  last_status false
    (snd (execute [CallConnect; CallDisconnect 1] (client_state world_up "vcan0"))) =
    m_connected
      (conn (fst (execute [CallConnect; CallDisconnect 1] (client_state world_up "vcan0")))).
Proof.
  apply (status_reports_track_flag [CallConnect; CallDisconnect 1] world_up "vcan0").
  reflexivity.
Defined.

